(** * sambacc: the command-line orchestrator [sambacc/main.py]

    A shallow embedding of [sambacc/main.py] and of the collaborators it
    drives, followed by the properties of the orchestration: what is checked
    before which store is touched, in which order the reconcilers run, how
    command-line values and environment variables are combined, and what the
    final process handoff looks like.

    Layout:
    - Python values, exceptions and the argparse namespace;
    - [from_env], [split_paths] and the parser declared in [main];
    - the outside world (stores, files, tools) and the monad of calls;
    - the collaborating modules, modelled from the specification;
    - the functions of [main.py];
    - lemmas and theorems. *)

From stdpp Require Import gmap strings list fin_maps pretty.
From Stdlib Require Import ZArith Ascii String.

Open Scope string_scope.
Open Scope Z_scope.
Open Scope list_scope.

(** ** Python values *)

(** The functions that [set_defaults(cfunc=...)] can store in a namespace. *)
Inductive cfunc_id :=
| f_print_config
| f_import_config
| f_import_users
| f_init_container
| f_run_container
| f_join.

(** The values a namespace attribute, an environment lookup or a local
    variable of [main.py] can hold. *)
Inductive pyval :=
| PNone
| PBool (b : bool)
| PInt (z : Z)
| PStr (s : string)
| PList (l : list string)
| PFunc (f : cfunc_id).

#[global] Instance cfunc_id_eq_dec : EqDecision cfunc_id.
Proof. solve_decision. Defined.

#[global] Instance pyval_eq_dec : EqDecision pyval.
Proof. solve_decision. Defined.

(** Python truthiness ([if value:], [not value], [a or b]). *)
Definition truthy (v : pyval) : bool :=
  match v with
  | PNone => false
  | PBool b => b
  | PInt z => negb (z =? 0)
  | PStr s => negb (String.eqb s "")
  | PList l => match l with [] => false | _ => true end
  | PFunc _ => true
  end.

(** [a or b] *)
Definition py_or (a b : pyval) : pyval := if truthy a then a else b.

(** [a == "literal"] for a string literal on the right. *)
Definition py_eq_str (a : pyval) (lit : string) : bool :=
  match a with
  | PStr s => String.eqb s lit
  | _ => false
  end.

(** Two built-ins are left open, since nothing here depends on what they
    compute: [repr] of the values whose [str] is not their content (lists
    and functions), and the integer that [int] reads from a string
    ([None] when [int] raises [ValueError]). *)
Class Builtins := {
  py_repr : pyval -> string;
  py_int_of_string : string -> option Z;
}.

(** ** Exceptions *)

(** The two messages [main.py] raises [Fail] with. *)
Inductive fail_msg :=
| missing_container_identity
| invalid_target_process (target : pyval).

(** Calls that leave the interpreter: to a collaborating module's store or
    tool, to the operating system. They are what a run is observed by. *)
Inductive call :=
| c_ensure_samba_dirs
| c_read_config_files (cfgs : list string)
| c_template_config (identity : string)
| c_net_import_config (identity : string)
| c_passwd_read (path : string)
| c_group_read (path : string)
| c_passwd_write (path : string)
| c_group_write (path : string)
| c_passdb_add_user (username : string)
| c_nss_read (path : string)
| c_nss_write (path : string)
| c_join (username password : pyval)
| c_sleep (seconds : Z)
| c_execvp (file : string) (argv : list string).

#[global] Instance call_eq_dec : EqDecision call.
Proof. solve_decision. Defined.

Inductive exn :=
| Fail (m : fail_msg)                 (* class Fail(ValueError) *)
| SystemExit (code : Z)               (* argparse's parser.error *)
| AttributeError (attr : string)
| TypeError
| ValueError
| ConfigNotFound (identity : pyval)   (* the config set has no such key *)
| FileAccessError (path : string)     (* a required file is missing *)
| ExternalFailure (c : call).         (* a tool or system call failed *)

(** Results of pure code that may raise. *)
Inductive res (A : Type) :=
| Ok (a : A)
| Err (e : exn).
Arguments Ok {A} a.
Arguments Err {A} e.

#[global] Instance res_ret : MRet res := @Ok.
#[global] Instance res_bind : MBind res := fun A B f r =>
  match r with
  | Ok a => f a
  | Err e => Err e
  end.

(** ** The argparse namespace *)

Abbreviation Namespace := (gmap string pyval).
Abbreviation Environ := (gmap string string).

(** [getattr(ns, var, dflt)] *)
Definition getattr (ns : Namespace) (var : string) (dflt : pyval) : pyval :=
  default dflt (ns !! var).

(** [setattr(ns, var, value)] *)
Definition setattr (ns : Namespace) (var : string) (value : pyval) : Namespace :=
  <[var := value]> ns.

(** [ns.var]: raises when the attribute does not exist. *)
Definition attr (ns : Namespace) (var : string) : res pyval :=
  match ns !! var with
  | Some v => Ok v
  | None => Err (AttributeError var)
  end.

(** ** [str] and [split_paths] *)

Section Conversions.
Context {builtins : Builtins}.

(** [str(value)] *)
Definition py_str (v : pyval) : res pyval :=
  Ok (PStr match v with
           | PNone => "None"
           | PBool true => "True"
           | PBool false => "False"
           | PInt z => pretty z
           | PStr s => s
           | PList _ | PFunc _ => py_repr v
           end).

(** [int(value)] *)
Definition py_int (v : pyval) : res Z :=
  match v with
  | PInt z => Ok z
  | PBool b => Ok (if b then 1 else 0)
  | PStr s => match py_int_of_string s with
              | Some z => Ok z
              | None => Err ValueError
              end
  | PNone | PList _ | PFunc _ => Err TypeError
  end.
End Conversions.

(** [v.split(":")] *)
Fixpoint split_colon (v : string) : list string :=
  match v with
  | EmptyString => [""]
  | String c rest =>
      let parts := split_colon rest in
      if Ascii.eqb c ":" then "" :: parts
      else match parts with
           | p :: ps => String c p :: ps
           | [] => [String c ""]
           end
  end.

(** [split_paths(value)] *)
Definition split_paths (value : pyval) : res pyval :=
  if negb (truthy value) then Ok value
  else
    (* if not isinstance(value, list): value = [value] *)
    match value with
    | PList l => Ok (PList (flat_map split_colon l))
    | PStr s => Ok (PList (flat_map split_colon [s]))
    | _ => Err (AttributeError "split")
    end.

(** ** [from_env] *)

(** [from_env(ns, var, ename, default, vtype)].  The [default] argument is
    accepted and never read, as in the source. *)
Definition from_env (environ : Environ) (ns : Namespace) (var ename : string)
    (dflt : pyval) (vtype : option (pyval -> res pyval)) : res Namespace :=
  let value := getattr ns var PNone in
  let value :=
    if negb (truthy value) then PStr (default "" (environ !! ename)) else value in
  value ← match vtype with
           | Some f => f value
           | None => Ok value
           end;
  Ok (if truthy value then setattr ns var value else ns).

(** ** The parser declared in [main] *)

(** What a command line supplies, option by option.  [--config] may be
    repeated ([action="append"]); the other options are given at most once;
    [--debug-delay] is already an integer ([type=int]). *)
Inductive subcommand :=
| cmd_print_config
| cmd_import
| cmd_import_users
| cmd_init
| cmd_run (no_init insecure_auto_join : bool) (target : string)
| cmd_insecure_join.

Record cmdline := {
  opt_config : list string;
  opt_identity : option string;
  opt_etc_passwd_path : option string;
  opt_etc_group_path : option string;
  opt_username : option string;
  opt_password : option string;
  opt_debug_delay : option Z;
  opt_command : option subcommand;
}.

Definition DEFAULT_CONFIG : string := "/etc/samba/container/config.json".

(** An option without [default=] is [None] when absent. *)
Definition opt_or_none (o : option string) : pyval :=
  match o with
  | Some s => PStr s
  | None => PNone
  end.

(** An option with [default=d]. *)
Definition opt_or (d : string) (o : option string) : pyval :=
  PStr (default d o).

(** [choices=["smbd", "winbindd"]] of the positional [target]. *)
Definition target_choices : list string := ["smbd"; "winbindd"].

(** The attributes of the top-level parser. *)
Definition parse_options (a : cmdline) : Namespace :=
  let ns : Namespace := ∅ in
  let ns := setattr ns "config"
              (match opt_config a with [] => PNone | l => PList l end) in
  let ns := setattr ns "identity" (opt_or_none (opt_identity a)) in
  let ns := setattr ns "etc_passwd_path" (opt_or "/etc/passwd" (opt_etc_passwd_path a)) in
  let ns := setattr ns "etc_group_path" (opt_or "/etc/group" (opt_etc_group_path a)) in
  let ns := setattr ns "username" (opt_or "Administrator" (opt_username a)) in
  let ns := setattr ns "password" (opt_or "" (opt_password a)) in
  let ns := setattr ns "debug_delay"
              (match opt_debug_delay a with Some z => PInt z | None => PNone end) in
  ns.

(** [parser.parse_args(args)]: the sub-parsers add their [cfunc] and, for
    [run], its flags and the checked [target]. *)
Definition parse_args (a : cmdline) : res Namespace :=
  let ns := parse_options a in
  match opt_command a with
  | None => Ok ns
  | Some cmd_print_config => Ok (setattr ns "cfunc" (PFunc f_print_config))
  | Some cmd_import => Ok (setattr ns "cfunc" (PFunc f_import_config))
  | Some cmd_import_users => Ok (setattr ns "cfunc" (PFunc f_import_users))
  | Some cmd_init => Ok (setattr ns "cfunc" (PFunc f_init_container))
  | Some (cmd_run no_init auto_join target) =>
      if bool_decide (target ∈ target_choices) then
        let ns := setattr ns "cfunc" (PFunc f_run_container) in
        let ns := setattr ns "no_init" (PBool no_init) in
        let ns := setattr ns "insecure_auto_join" (PBool auto_join) in
        Ok (setattr ns "target" (PStr target))
      else Err (SystemExit 2)
  | Some cmd_insecure_join => Ok (setattr ns "cfunc" (PFunc f_join))
  end.

(** ** The declarative model (spec, section 3) *)

Record User := {
  user_name : string;
  user_uid : Z;
  user_gid : Z;
  user_display : option string;
  user_shell : option string;
  user_password : option string;    (* service-specific password material *)
}.

Record Group := {
  group_name : string;
  group_gid : Z;
  group_members : list string;
}.

(** One identity's configuration: the users and groups in declaration order
    and the registry settings (section, parameter, value) it asks for. *)
Record InstanceConfig := {
  ic_identity : string;
  ic_users : list User;
  ic_groups : list Group;
  ic_settings : list (string * string * string);
}.

(** A source document and a merged config set: identity key to definition. *)
Abbreviation ConfigSet := (gmap string InstanceConfig).

(** One record of the OS passwd store and of the OS group store. *)
Record passwd_entry := {
  pw_name : string;
  pw_uid : Z;
  pw_gid : Z;
  pw_gecos : option string;
  pw_shell : option string;
}.

Record group_entry := {
  gr_name : string;
  gr_gid : Z;
  gr_members : list string;
}.

(** One line of the name-service switch file: a database and its
    resolution order. *)
Record directive := {
  nss_db : string;
  nss_modules : list string;
}.

(** ** The outside world *)

(** The stores the reconcilers read and write, each keyed as the store is
    (files by path), and [w_faults], which says which outside calls fail in
    this world (a tool returning non-zero, a file that cannot be written, an
    executable that cannot be started).  One store is one file: the model
    does not cover two stores pointed at the same path. *)
Record world := World {
  w_sources : gmap string ConfigSet;
  w_registry : gmap (string * string) string;
  w_passwd : gmap string (list passwd_entry);
  w_group : gmap string (list group_entry);
  w_passdb : gmap string (option string);
  w_nsswitch : gmap string (list directive);
  w_faults : call -> bool;
}.

Definition set_registry (r : gmap (string * string) string) (w : world) : world :=
  World (w_sources w) r (w_passwd w) (w_group w) (w_passdb w) (w_nsswitch w) (w_faults w).
Definition set_passwd (p : gmap string (list passwd_entry)) (w : world) : world :=
  World (w_sources w) (w_registry w) p (w_group w) (w_passdb w) (w_nsswitch w) (w_faults w).
Definition set_group (g : gmap string (list group_entry)) (w : world) : world :=
  World (w_sources w) (w_registry w) (w_passwd w) g (w_passdb w) (w_nsswitch w) (w_faults w).
Definition set_passdb (d : gmap string (option string)) (w : world) : world :=
  World (w_sources w) (w_registry w) (w_passwd w) (w_group w) d (w_nsswitch w) (w_faults w).
Definition set_nsswitch (n : gmap string (list directive)) (w : world) : world :=
  World (w_sources w) (w_registry w) (w_passwd w) (w_group w) (w_passdb w) n (w_faults w).

(** ** The monad of calls *)

(** How a piece of the program ends: it returns, it raises, or the process
    image has been replaced by [os.execvp] and nothing of it runs any more. *)
Inductive outcome (A : Type) :=
| Done (a : A)
| Raised (e : exn)
| Replaced (file : string) (argv : list string).
Arguments Done {A} a.
Arguments Raised {A} e.
Arguments Replaced {A} file argv.

(** A run: how it ended, the world it left, the outside calls it made. *)
#[projections(primitive)]
Record run (A : Type) := Run {
  outcome_of : outcome A;
  world_of : world;
  calls_of : list call;
}.
Arguments Run {A} _ _ _.
Arguments outcome_of {A} _.
Arguments world_of {A} _.
Arguments calls_of {A} _.

Definition M (A : Type) : Type := world -> run A.

#[global] Instance M_ret : MRet M := fun A a w => Run (Done a) w [].
#[global] Instance M_bind : MBind M := fun A B f m w =>
  let r := m w in
  match outcome_of r with
  | Done a =>
      let r' := f a (world_of r) in
      Run (outcome_of r') (world_of r') (calls_of r ++ calls_of r')
  | Raised e => Run (Raised e) (world_of r) (calls_of r)
  | Replaced file argv => Run (Replaced file argv) (world_of r) (calls_of r)
  end.

(** [raise e] *)
Definition raise {A} (e : exn) : M A := fun w => Run (Raised e) w [].

(** Pure code that may raise, run inside [M]. *)
Definition lift {A} (r : res A) : M A :=
  match r with
  | Ok a => mret a
  | Err e => raise e
  end.

(** An outside call: it is recorded, fails if this world says so, and
    otherwise has its effect on the stores. *)
Definition invoke {A} (c : call) (effect : world -> res (A * world)) : M A :=
  fun w =>
    if w_faults w c then Run (Raised (ExternalFailure c)) w [c]
    else match effect w with
         | Ok (a, w') => Run (Done a) w' [c]
         | Err e => Run (Raised e) w [c]
         end.

(** [for x in xs: body(x)] *)
Fixpoint for_each {A} (xs : list A) (body : A -> M unit) : M unit :=
  match xs with
  | [] => mret tt
  | x :: xs' => body x ;; for_each xs' body
  end.

(** ** The collaborating modules

    [main.py] imports [sambacc.config], [sambacc.netcmd_loader],
    [sambacc.nsswitch_loader], [sambacc.passdb_loader],
    [sambacc.passwd_loader] and [sambacc.paths]; their code is not part of
    what is verified here, so each is modelled from its contract in the
    specification. *)

(** Modelled from the spec: [paths.ensure_samba_dirs], of which only the
    call is known; it touches none of the stores. *)
Definition ensure_samba_dirs : M unit :=
  invoke c_ensure_samba_dirs (fun w => Ok (tt, w)).

(** Modelled from the spec: the merge of section 4.1, sources taken in the
    given order, a later source's definition of an identity replacing an
    earlier one's as a whole. *)
Definition merge_sources (docs : list ConfigSet) : ConfigSet :=
  foldl (fun merged doc => doc ∪ merged) ∅ docs.

(** The documents at the given locations, in order; a location that holds
    no document is a missing required file. *)
Fixpoint load_sources (sources : gmap string ConfigSet) (cfgs : list string)
    : res (list ConfigSet) :=
  match cfgs with
  | [] => Ok []
  | p :: ps =>
      match sources !! p with
      | Some doc => docs ← load_sources sources ps; Ok (doc :: docs)
      | None => Err (FileAccessError p)
      end
  end.

(** Modelled from the spec: [config.read_config_files] is [load] of
    section 4.1.  Its argument must be a list of locations. *)
Definition read_config_files (cfgs : pyval) : M ConfigSet :=
  match cfgs with
  | PList l =>
      invoke (c_read_config_files l)
        (fun w => docs ← load_sources (w_sources w) l; Ok (merge_sources docs, w))
  | _ => raise TypeError
  end.

(** Modelled from the spec: [ConfigSet.get(identity)] of section 4.1, which
    fails with NotFound when the key is in none of the sources. *)
Definition config_get (cs : ConfigSet) (identity : pyval) : res InstanceConfig :=
  match identity with
  | PStr s => match cs !! s with
              | Some ic => Ok ic
              | None => Err (ConfigNotFound identity)
              end
  | _ => Err (ConfigNotFound identity)
  end.

(** Modelled from the spec: [nc.template_config(sys.stdout, iconfig)], of
    which only the call is known; it writes to standard output. *)
Definition template_config (iconfig : InstanceConfig) : M unit :=
  invoke (c_template_config (ic_identity iconfig)) (fun w => Ok (tt, w)).

(** Modelled from the spec: the registry reconciler of section 4.2,
    [nc.NetCmdLoader().import_config(iconfig)].  Missing keys are added and
    changed values updated; keys the configuration does not name stay. *)
Definition apply_settings (settings : list (string * string * string))
    (registry : gmap (string * string) string) : gmap (string * string) string :=
  foldl (fun reg '(section, param, value) => <[(section, param) := value]> reg)
        registry settings.

Definition net_import_config (iconfig : InstanceConfig) : M unit :=
  invoke (c_net_import_config (ic_identity iconfig))
    (fun w => Ok (tt, set_registry (apply_settings (ic_settings iconfig) (w_registry w)) w)).

(** A path argument handed to a file loader: opening anything but a string
    raises. *)
Definition as_path (v : pyval) : res string :=
  match v with
  | PStr s => Ok s
  | _ => Err TypeError
  end.

(** Modelled from the spec: [ugl.PasswdFileLoader] and [ugl.GroupFileLoader],
    step 1 of section 4.3.  A loader holds the records it read; [add_user]
    and [add_group] append a record for a name that is not there yet and
    leave an existing record untouched; [write] puts the records back. *)
Definition passwd_of_user (u : User) : passwd_entry :=
  {| pw_name := user_name u; pw_uid := user_uid u; pw_gid := user_gid u;
     pw_gecos := user_display u; pw_shell := user_shell u |}.

Definition group_of_group (g : Group) : group_entry :=
  {| gr_name := group_name g; gr_gid := group_gid g; gr_members := group_members g |}.

Definition passwd_read (path : pyval) : M (list passwd_entry) :=
  p ← lift (as_path path);
  invoke (c_passwd_read p)
    (fun w => match w_passwd w !! p with
              | Some entries => Ok (entries, w)
              | None => Err (FileAccessError p)
              end).

Definition group_read (path : pyval) : M (list group_entry) :=
  p ← lift (as_path path);
  invoke (c_group_read p)
    (fun w => match w_group w !! p with
              | Some entries => Ok (entries, w)
              | None => Err (FileAccessError p)
              end).

Definition passwd_add_user (entries : list passwd_entry) (u : User) : list passwd_entry :=
  if existsb (fun e => String.eqb (pw_name e) (user_name u)) entries then entries
  else entries ++ [passwd_of_user u].

Definition group_add_group (entries : list group_entry) (g : Group) : list group_entry :=
  if existsb (fun e => String.eqb (gr_name e) (group_name g)) entries then entries
  else entries ++ [group_of_group g].

Definition passwd_write (path : pyval) (entries : list passwd_entry) : M unit :=
  p ← lift (as_path path);
  invoke (c_passwd_write p) (fun w => Ok (tt, set_passwd (<[p := entries]> (w_passwd w)) w)).

Definition group_write (path : pyval) (entries : list group_entry) : M unit :=
  p ← lift (as_path path);
  invoke (c_group_write p) (fun w => Ok (tt, set_group (<[p := entries]> (w_group w)) w)).

(** Modelled from the spec: [passdb.PassDBLoader().add_user(u)], step 2 of
    section 4.3: an upsert keyed by username that carries the password
    material. *)
Definition passdb_add_user (u : User) : M unit :=
  invoke (c_passdb_add_user (user_name u))
    (fun w => Ok (tt, set_passdb (<[user_name u := user_password u]> (w_passdb w)) w)).

(** Modelled from the spec: [nc.Joiner().join(username, password)] of
    section 4.5, an outside tool that either succeeds or fails. *)
Definition joiner_join (username password : pyval) : M unit :=
  invoke (c_join username password) (fun w => Ok (tt, w)).

(** Which entries of a resolution order are terminating fallbacks is not
    said by the specification; the position policy is stated against any
    such test. *)
Class ResolutionPolicy := is_fallback : string -> bool.

(** The module the loader's methods are named after. *)
Definition required_module : string := "winbind".

(** The passwd and group databases are the ones whose order matters. *)
Definition identity_db (d : directive) : bool :=
  String.eqb (nss_db d) "passwd" || String.eqb (nss_db d) "group".

Definition has_module (d : directive) : bool :=
  existsb (String.eqb required_module) (nss_modules d).

Section NameServiceSwitchLoader.
Context {policy : ResolutionPolicy}.

(** Modelled from the spec: [nsswitch.NameServiceSwitchLoader], the
    reconciler of section 4.4.  [winbind_enabled] says whether the required
    module is present in the passwd and group resolution orders;
    [ensure_winbind_enabled] inserts it where it is absent, appended or
    put before a terminating fallback, and changes nothing else. *)
Definition winbind_enabled (lines : list directive) : bool :=
  forallb (fun d => implb (identity_db d) (has_module d)) lines.

Fixpoint insert_module (modules : list string) : list string :=
  match modules with
  | [] => [required_module]
  | m :: ms =>
      if is_fallback m then required_module :: m :: ms
      else m :: insert_module ms
  end.

Definition ensure_directive (d : directive) : directive :=
  if identity_db d && negb (has_module d)
  then {| nss_db := nss_db d; nss_modules := insert_module (nss_modules d) |}
  else d.

Definition ensure_winbind_enabled (lines : list directive) : list directive :=
  map ensure_directive lines.
End NameServiceSwitchLoader.

Definition nss_read (path : string) : M (list directive) :=
  invoke (c_nss_read path)
    (fun w => match w_nsswitch w !! path with
              | Some lines => Ok (lines, w)
              | None => Err (FileAccessError path)
              end).

Definition nss_write (path : string) (lines : list directive) : M unit :=
  invoke (c_nss_write path)
    (fun w => Ok (tt, set_nsswitch (<[path := lines]> (w_nsswitch w)) w)).

(** ** The operating system *)

(** [os.execvp(file, argv)]: on success the process image is replaced and
    the call does not return; on failure it raises. *)
Definition execvp (file : string) (argv : list string) : M unit :=
  fun w =>
    if w_faults w (c_execvp file argv)
    then Run (Raised (ExternalFailure (c_execvp file argv))) w [c_execvp file argv]
    else Run (Replaced file argv) w [c_execvp file argv].

(** [time.sleep(seconds)]: a negative length raises [ValueError]. *)
Definition sleep (seconds : Z) : M unit :=
  if seconds <? 0 then raise ValueError
  else invoke (c_sleep seconds) (fun w => Ok (tt, w)).

(** ** The functions of [main.py]

    Every command function takes [(cli, config)]; [config] is always the
    module [sambacc.config], so the model leaves the argument out. *)

Section Main.
Context {builtins : Builtins} {policy : ResolutionPolicy}.

Definition print_config (cli : Namespace) : M unit :=
  config ← lift (attr cli "config");
  let cfgs := py_or config (PList []) in
  cs ← read_config_files cfgs;
  identity ← lift (attr cli "identity");
  iconfig ← lift (config_get cs identity);
  template_config iconfig.

Definition import_config (cli : Namespace) : M unit :=
  (* there are some expectations about what dirs exist and perms *)
  ensure_samba_dirs;;
  config ← lift (attr cli "config");
  let cfgs := py_or config (PList []) in
  cs ← read_config_files cfgs;
  identity ← lift (attr cli "identity");
  iconfig ← lift (config_get cs identity);
  net_import_config iconfig.

Definition import_users (cli : Namespace) : M unit :=
  config ← lift (attr cli "config");
  let cfgs := py_or config (PList []) in
  cs ← read_config_files cfgs;
  identity ← lift (attr cli "identity");
  iconfig ← lift (config_get cs identity);
  etc_passwd_path ← lift (attr cli "etc_passwd_path");
  etc_group_path ← lift (attr cli "etc_group_path");
  passwd_lines ← passwd_read etc_passwd_path;
  group_lines ← group_read etc_group_path;
  let passwd_lines := foldl passwd_add_user passwd_lines (ic_users iconfig) in
  let group_lines := foldl group_add_group group_lines (ic_groups iconfig) in
  passwd_write etc_passwd_path passwd_lines;;
  group_write etc_group_path group_lines;;
  for_each (ic_users iconfig) passdb_add_user.

(** The last block of [init_container]: the nsswitch validation and edit. *)
Definition init_nsswitch : M unit :=
  let nss := "/etc/nsswitch.conf" in
  lines ← nss_read nss;
  if negb (winbind_enabled lines)
  then nss_write nss (ensure_winbind_enabled lines)
  else mret tt.

Definition init_container (cli : Namespace) : M unit :=
  import_config cli;;
  import_users cli;;
  init_nsswitch.

Definition join (cli : Namespace) : M unit :=
  username ← lift (attr cli "username");
  password ← lift (attr cli "password");
  joiner_join username password.

Definition smbd_cmd : list string :=
  ["/usr/sbin/smbd"; "--foreground"; "--log-stdout"; "--no-process-group"].

Definition winbindd_cmd : list string :=
  ["/usr/sbin/winbindd"; "--foreground"; "--stdout"; "--no-process-group"].

Definition run_container (cli : Namespace) : M unit :=
  (if negb (truthy (getattr cli "no_init" (PBool false)))
   then init_container cli
   else ensure_samba_dirs);;
  target ← lift (attr cli "target");
  if py_eq_str target "smbd" then
    let cmd := smbd_cmd in
    execvp (hd "" cmd) cmd
  else
    target ← lift (attr cli "target");
    if py_eq_str target "winbindd" then
      (if truthy (getattr cli "insecure_auto_join" (PBool false))
       then join cli
       else mret tt);;
      let cmd := winbindd_cmd in
      execvp (hd "" cmd) cmd
    else
      target ← lift (attr cli "target");
      raise (Fail (invalid_target_process target)).

Definition default_cfunc : cfunc_id := f_print_config.

Definition pre_action (cli : Namespace) : M unit :=
  debug_delay ← lift (attr cli "debug_delay");
  if truthy debug_delay then
    debug_delay ← lift (attr cli "debug_delay");
    seconds ← lift (py_int debug_delay);
    sleep seconds
  else mret tt.

(** [cfunc(cli, config)] *)
Definition call_cfunc (cfunc : pyval) (cli : Namespace) : M unit :=
  match cfunc with
  | PFunc f_print_config => print_config cli
  | PFunc f_import_config => import_config cli
  | PFunc f_import_users => import_users cli
  | PFunc f_init_container => init_container cli
  | PFunc f_run_container => run_container cli
  | PFunc f_join => join cli
  | _ => raise TypeError
  end.

(** The namespace [main] works with: [parse_args] and the four calls of
    [from_env] that follow it. *)
Definition main_cli (args : cmdline) (environ : Environ) : res Namespace :=
  cli ← parse_args args;
  cli ← from_env environ cli "config" "SAMBACC_CONFIG"
          (PStr DEFAULT_CONFIG) (Some split_paths);
  cli ← from_env environ cli "identity" "SAMBA_CONTAINER_ID" PNone (Some py_str);
  cli ← from_env environ cli "username" "JOIN_USERNAME" PNone (Some py_str);
  from_env environ cli "password" "INSECURE_JOIN_PASSWORD" PNone (Some py_str).

Definition main (args : cmdline) (environ : Environ) : M unit :=
  cli ← lift (main_cli args environ);
  identity ← lift (attr cli "identity");
  if negb (truthy identity) then raise (Fail missing_container_identity)
  else
    pre_action cli;;
    let cfunc := getattr cli "cfunc" (PFunc default_cfunc) in
    call_cfunc cfunc cli.
End Main.

(** ** Vocabulary of the properties *)

(** The calls that write one of the backing stores: the registry, the OS
    passwd and group files, the credential database, the resolution file. *)
Definition store_write (c : call) : bool :=
  match c with
  | c_net_import_config _ | c_passwd_write _ | c_group_write _
  | c_passdb_add_user _ | c_nss_write _ => true
  | _ => false
  end.

(** A fatal error with nothing written: the run raised, made no writing
    call and left the world as it found it. *)
Definition failed_before_write {A} (r : run A) (w : world) : Prop :=
  (exists e, outcome_of r = Raised e)
  /\ world_of r = w
  /\ Forall (fun c => store_write c = false) (calls_of r).

(** The three reconcilers of the bootstrap, in the order of the state
    machine, and the reconciler a call to a store belongs to.  Reading the
    declarative sources and preparing the directories belong to none. *)
Inductive reconciler :=
| registry_step
| identity_step
| resolution_step.

Definition step_of (c : call) : option reconciler :=
  match c with
  | c_net_import_config _ => Some registry_step
  | c_passwd_read _ | c_group_read _ | c_passwd_write _ | c_group_write _
  | c_passdb_add_user _ => Some identity_step
  | c_nss_read _ | c_nss_write _ => Some resolution_step
  | _ => None
  end.

(** The locations a namespace names ([cli.config or []]). *)
Definition config_sources (cli : Namespace) : pyval :=
  py_or (getattr cli "config" PNone) (PList []).

(** The identity key is in none of the sources the namespace names. *)
Definition absent_from_sources (cli : Namespace) (w : world) : Prop :=
  forall cfgs p doc id,
    config_sources cli = PList cfgs -> p ∈ cfgs ->
    w_sources w !! p = Some doc ->
    cli !! "identity" = Some (PStr id) ->
    doc !! id = None.

(** The identity configuration a namespace selects in a world, when the
    sources can be read and hold the key. *)
Definition selected_config (cli : Namespace) (w : world) : option InstanceConfig :=
  match cli !! "config", cli !! "identity" with
  | Some config, Some identity =>
      match py_or config (PList []) with
      | PList cfgs =>
          match load_sources (w_sources w) cfgs with
          | Ok docs =>
              match config_get (merge_sources docs) identity with
              | Ok iconfig => Some iconfig
              | Err _ => None
              end
          | Err _ => None
          end
      | _ => None
      end
  | _, _ => None
  end.

(** Neither the command line nor the environment supplies an identity. *)
Definition no_identity_supplied (args : cmdline) (environ : Environ) : Prop :=
  default "" (opt_identity args) = "" /\ default "" (environ !! "SAMBA_CONTAINER_ID") = "".

(** The commands that look the identity up in the declarative sources:
    all but [insecure-join] and [run --no-init]. *)
Definition reads_config (cmd : option subcommand) : bool :=
  match cmd with
  | Some cmd_insecure_join => false
  | Some (cmd_run no_init _ _) => negb no_init
  | _ => true
  end.

(** The function a command line selects ([set_defaults(cfunc=...)], or
    [default_cfunc] without a sub-command). *)
Definition command_cfunc (cmd : option subcommand) : cfunc_id :=
  match cmd with
  | None => default_cfunc
  | Some cmd_print_config => f_print_config
  | Some cmd_import => f_import_config
  | Some cmd_import_users => f_import_users
  | Some cmd_init => f_init_container
  | Some (cmd_run _ _ _) => f_run_container
  | Some cmd_insecure_join => f_join
  end.

(** The value of a string option once the environment has been consulted:
    the parsed value unless that is empty. *)
Definition env_fallback (environ : Environ) (ename : string) (parsed : string) : string :=
  if String.eqb parsed "" then default "" (environ !! ename) else parsed.

(** A run that wrote nothing. *)
Definition quiet {A} (r : run A) (w : world) : Prop :=
  world_of r = w /\ Forall (fun c => store_write c = false) (calls_of r).

(** A program whose every call satisfies [P] and which, when the process
    image has been replaced, made that [os.execvp] its last call. *)
Definition traced {A} (P : call -> Prop) (m : M A) : Prop :=
  forall w,
    Forall P (calls_of (m w))
    /\ forall file argv,
         outcome_of (m w) = Replaced file argv ->
         exists t, calls_of (m w) = t ++ [c_execvp file argv].

(** The upserts of the credential database, users in order. *)
Definition upsert_all (us : list User) (passdb : gmap string (option string))
    : gmap string (option string) :=
  foldl (fun db u => <[user_name u := user_password u]> db) passdb us.

(** What [run_container] does before it looks at the target: the whole
    initialisation, or only the directories with [no_init]. *)
Definition run_init {policy : ResolutionPolicy} (cli : Namespace) : M unit :=
  if negb (truthy (getattr cli "no_init" (PBool false)))
  then init_container cli
  else ensure_samba_dirs.

(** Calls that belong to no reconciler or to the given one. *)
Definition of_step (s : reconciler) (c : call) : Prop :=
  step_of c = None \/ step_of c = Some s.

(** Calls that are neither a join nor a process handoff. *)
Definition init_call (c : call) : Prop :=
  match c with
  | c_join _ _ | c_execvp _ _ => False
  | _ => True
  end.

(** The file [init_container] hands to the name-service switch loader. *)
Definition nsswitch_conf : string := "/etc/nsswitch.conf".

(** The world a completed [init_container] leaves: the settings imported
    into the registry, the missing users and groups appended to the two
    identity files, one credential entry per declared user, and the
    resolution file rewritten when the required module was absent. *)
Definition initialised {policy : ResolutionPolicy} (iconfig : InstanceConfig)
    (pp gp : string) (passwd_lines : list passwd_entry)
    (group_lines : list group_entry) (lines : list directive) (w : world) : world :=
  World (w_sources w)
        (apply_settings (ic_settings iconfig) (w_registry w))
        (<[pp := foldl passwd_add_user passwd_lines (ic_users iconfig)]> (w_passwd w))
        (<[gp := foldl group_add_group group_lines (ic_groups iconfig)]> (w_group w))
        (upsert_all (ic_users iconfig) (w_passdb w))
        (if winbind_enabled lines then w_nsswitch w
         else <[nsswitch_conf := ensure_winbind_enabled lines]> (w_nsswitch w))
        (w_faults w).

(** The required module was put into a resolution order that lacked it:
    it is there once and the other entries are as they were. *)
Definition inserted_once (d d' : directive) : Prop :=
  nss_db d' = nss_db d
  /\ count_occ string_dec (nss_modules d') required_module = 1%nat
  /\ filter (fun m => m ≠ required_module) (nss_modules d') = nss_modules d.

(** How [ensure_winbind_enabled] relates a line to its replacement. *)
Definition ensured (d d' : directive) : Prop :=
  if identity_db d && negb (has_module d) then inserted_once d d' else d' = d.

(** ** A sample deployment

    The end-to-end scenario of the specification: identity [srv1] with user
    [bob] and group [bobgrp], empty OS stores, and a resolution file that
    reads [passwd: files]. *)

Definition sample_builtins : Builtins :=
  {| py_repr := fun _ => "<object>"; py_int_of_string := fun _ => None |}.

Definition sample_policy : ResolutionPolicy := fun _ => false.

Definition bob : User :=
  {| user_name := "bob"; user_uid := 2001; user_gid := 2001;
     user_display := None; user_shell := None; user_password := Some "secret" |}.

Definition bobgrp : Group :=
  {| group_name := "bobgrp"; group_gid := 2001; group_members := ["bob"] |}.

Definition srv1 : InstanceConfig :=
  {| ic_identity := "srv1"; ic_users := [bob]; ic_groups := [bobgrp];
     ic_settings := [("global", "security", "user")] |}.

Definition no_faults : call -> bool := fun _ => false.

Definition sample_world : world :=
  {| w_sources := {[ DEFAULT_CONFIG := {[ "srv1" := srv1 ]} ]};
     w_registry := ∅;
     w_passwd := {[ "/etc/passwd" := [] ]};
     w_group := {[ "/etc/group" := [] ]};
     w_passdb := ∅;
     w_nsswitch :=
       {[ "/etc/nsswitch.conf" := [ {| nss_db := "passwd"; nss_modules := ["files"] |} ] ]};
     w_faults := no_faults |}.

(** The same deployment where [bob] already has an OS account. *)
Definition sample_world_with_bob : world :=
  set_passwd {[ "/etc/passwd" :=
                 [ {| pw_name := "bob"; pw_uid := 1000; pw_gid := 1000;
                      pw_gecos := None; pw_shell := None |} ] ]}
             sample_world.

(** [sambacc --config /etc/samba/container/config.json --identity ID CMD] *)
Definition sample_args (identity : string) (cmd : subcommand) : cmdline :=
  {| opt_config := [DEFAULT_CONFIG]; opt_identity := Some identity;
     opt_etc_passwd_path := None; opt_etc_group_path := None;
     opt_username := None; opt_password := None;
     opt_debug_delay := None; opt_command := Some cmd |}.

(** An environment that sets all four variables [main] looks at. *)
Definition sample_environ : Environ :=
  {[ "SAMBACC_CONFIG" := "/env/config.json";
     "SAMBA_CONTAINER_ID" := "envid";
     "JOIN_USERNAME" := "envuser";
     "INSECURE_JOIN_PASSWORD" := "envpass" ]}.

(** [sambacc --config /a.json:/b.json --identity srv1 [--username U]
    [--password P] insecure-join] *)
Definition sample_join_args (username password : option string) : cmdline :=
  {| opt_config := ["/a.json:/b.json"]; opt_identity := Some "srv1";
     opt_etc_passwd_path := None; opt_etc_group_path := None;
     opt_username := username; opt_password := password;
     opt_debug_delay := None; opt_command := Some cmd_insecure_join |}.

(** The namespace [main] builds for a command line and an environment
    (empty when the parser rejects the command line). *)
Definition sample_cli (args : cmdline) (environ : Environ) : Namespace :=
  match main_cli (builtins:=sample_builtins) args environ with
  | Ok cli => cli
  | Err _ => ∅
  end.

(** The namespace of [sambacc ... --identity srv1 run TARGET], built as the
    parser would, for any string in place of the target. *)
Definition sample_run_cli (target : string) : Namespace :=
  let ns := parse_options (sample_args "srv1" cmd_init) in
  let ns := setattr ns "cfunc" (PFunc f_run_container) in
  let ns := setattr ns "no_init" (PBool false) in
  let ns := setattr ns "insecure_auto_join" (PBool false) in
  setattr ns "target" (PStr target).

(** * Properties *)

(** ** The monad of calls *)

Section Monad.
Context {A B : Type}.
Implicit Types (m : M A) (f : A -> M B) (w : world).

Lemma bind_ret (a : A) f w : (mret a ≫= f) w = f a w.
Proof. reflexivity. Qed.

Lemma bind_raise (e : exn) f w : (raise e ≫= f) w = Run (Raised e) w [].
Proof. reflexivity. Qed.

Lemma bind_lift_ok (a : A) f w : (lift (Ok a) ≫= f) w = f a w.
Proof. reflexivity. Qed.

Lemma bind_lift_err (e : exn) f w : (lift (Err e) ≫= f) w = Run (Raised e) w [].
Proof. reflexivity. Qed.

Lemma bind_done m f w a :
  outcome_of (m w) = Done a ->
  (m ≫= f) w =
  Run (outcome_of (f a (world_of (m w)))) (world_of (f a (world_of (m w))))
      (calls_of (m w) ++ calls_of (f a (world_of (m w)))).
Proof. intros E. unfold mbind, M_bind. by rewrite E. Qed.

Lemma bind_raised m f w e :
  outcome_of (m w) = Raised e ->
  (m ≫= f) w = Run (Raised e) (world_of (m w)) (calls_of (m w)).
Proof. intros E. unfold mbind, M_bind. by rewrite E. Qed.

Lemma bind_replaced m f w file argv :
  outcome_of (m w) = Replaced file argv ->
  (m ≫= f) w = Run (Replaced file argv) (world_of (m w)) (calls_of (m w)).
Proof. intros E. unfold mbind, M_bind. by rewrite E. Qed.

Lemma calls_of_bind m f w :
  calls_of ((m ≫= f) w) =
  calls_of (m w) ++ match outcome_of (m w) with
                    | Done a => calls_of (f a (world_of (m w)))
                    | _ => []
                    end.
Proof.
  unfold mbind, M_bind. destruct (outcome_of (m w)); simpl; by rewrite ?app_nil_r.
Qed.

Lemma bind_done_inv m f w b :
  outcome_of ((m ≫= f) w) = Done b ->
  exists a, outcome_of (m w) = Done a
            /\ outcome_of (f a (world_of (m w))) = Done b.
Proof.
  unfold mbind, M_bind. destruct (outcome_of (m w)) eqn:E; simpl; try done.
  intros E'. eauto.
Qed.

Lemma bind_replaced_inv m f w file argv :
  outcome_of ((m ≫= f) w) = Replaced file argv ->
  outcome_of (m w) = Replaced file argv
  \/ exists a, outcome_of (m w) = Done a
               /\ outcome_of (f a (world_of (m w))) = Replaced file argv.
Proof.
  unfold mbind, M_bind. destruct (outcome_of (m w)) eqn:E; simpl; try done.
  - intros E'. right. eauto.
  - intros [= -> ->]. by left.
Qed.

Lemma bind_calls_Forall (P : call -> Prop) m f w :
  Forall P (calls_of (m w)) ->
  (forall a, Forall P (calls_of (f a (world_of (m w))))) ->
  Forall P (calls_of ((m ≫= f) w)).
Proof.
  intros Hm Hf. rewrite calls_of_bind. apply Forall_app. split; [done|].
  destruct (outcome_of (m w)); auto.
Qed.
End Monad.

Lemma calls_of_lift {A} (r : res A) w : calls_of (lift r w) = [].
Proof. by destruct r. Qed.

Lemma world_of_lift {A} (r : res A) w : world_of (lift r w) = w.
Proof. by destruct r. Qed.

Lemma calls_of_invoke {A} c (effect : world -> res (A * world)) w :
  calls_of (invoke c effect w) = [c].
Proof.
  unfold invoke. destruct (w_faults w c); [done|]. by destruct (effect w) as [[a w']|e].
Qed.

Lemma invoke_ok {A} c (effect : world -> res (A * world)) w a w' :
  w_faults w c = false -> effect w = Ok (a, w') ->
  invoke c effect w = Run (Done a) w' [c].
Proof. intros Hf He. unfold invoke. by rewrite Hf, He. Qed.

Lemma invoke_done_inv {A} c (effect : world -> res (A * world)) w a :
  outcome_of (invoke c effect w) = Done a ->
  w_faults w c = false /\ effect w = Ok (a, world_of (invoke c effect w)).
Proof.
  unfold invoke. destruct (w_faults w c); [done|].
  destruct (effect w) as [[a' w']|e]; simpl; [|done]. intros [= ->]. done.
Qed.

Lemma invoke_not_replaced {A} c (effect : world -> res (A * world)) w file argv :
  outcome_of (invoke c effect w) <> Replaced file argv.
Proof.
  unfold invoke. destruct (w_faults w c); [done|]. by destruct (effect w) as [[a' w']|e].
Qed.

Lemma calls_of_execvp file argv w : calls_of (execvp file argv w) = [c_execvp file argv].
Proof. unfold execvp. by destruct (w_faults w _). Qed.

Lemma execvp_not_done file argv w a : outcome_of (execvp file argv w) <> Done a.
Proof. unfold execvp. by destruct (w_faults w _). Qed.

Lemma execvp_replaced_inv file argv w file' argv' :
  outcome_of (execvp file argv w) = Replaced file' argv' -> file' = file /\ argv' = argv.
Proof. unfold execvp. destruct (w_faults w _); [done|]. by intros [= -> ->]. Qed.

(** ** The namespace that [main] builds *)

Lemma truthy_PStr s : truthy (PStr s) = true <-> s <> "".
Proof.
  simpl. destruct (String.eqb_spec s ""); simpl; split; congruence.
Qed.

Lemma from_env_other environ ns var ename dflt vtype ns' k :
  from_env environ ns var ename dflt vtype = Ok ns' ->
  k <> var -> ns' !! k = ns !! k.
Proof.
  unfold from_env. intros E Hk.
  destruct (match vtype with Some f => f _ | None => Ok _ end) as [v|e];
    simpl in E; [|done].
  injection E as <-. destruct (truthy v); [|done].
  unfold setattr. by rewrite lookup_insert_ne.
Qed.

Section FromEnvStr.
Context {builtins : Builtins}.

(** A string option after [from_env]: the value it had when that was not
    empty, the environment's otherwise. *)
Lemma from_env_str environ ns var ename dflt s :
  ns !! var = Some (PStr s) ->
  exists ns',
    from_env environ ns var ename dflt (Some py_str) = Ok ns'
    /\ ns' !! var =
       Some (PStr (if String.eqb s "" then default "" (environ !! ename) else s)).
Proof.
  intros E. unfold from_env, getattr. rewrite E. simpl.
  destruct (String.eqb_spec s "") as [->|Hs]; simpl.
  - destruct (String.eqb_spec (default "" (environ !! ename)) "") as [->|He]; simpl.
    + eauto.
    + eexists. split; [done|]. unfold setattr. by rewrite lookup_insert_eq.
  - destruct (String.eqb_spec s ""); [done|]. simpl.
    eexists. split; [done|]. unfold setattr. by rewrite lookup_insert_eq.
Qed.

(** An option that is [None] after parsing. *)
Lemma from_env_none environ ns var ename dflt :
  ns !! var = Some PNone ->
  exists ns',
    from_env environ ns var ename dflt (Some py_str) = Ok ns'
    /\ ns' !! var =
       Some (if String.eqb (default "" (environ !! ename)) "" then PNone
             else PStr (default "" (environ !! ename))).
Proof.
  intros E. unfold from_env, getattr. rewrite E. simpl.
  destruct (String.eqb_spec (default "" (environ !! ename)) "") as [->|He]; simpl.
  - eauto.
  - eexists. split; [done|]. unfold setattr. by rewrite lookup_insert_eq.
Qed.
End FromEnvStr.

(** The [config] attribute after [from_env] with [split_paths]. *)
Lemma from_env_config_cli environ ns ename dflt l :
  ns !! "config" = Some (PList l) -> l <> [] ->
  exists ns',
    from_env environ ns "config" ename dflt (Some split_paths) = Ok ns'
    /\ ns' !! "config" = Some (PList (flat_map split_colon l)).
Proof.
  intros E Hl. unfold from_env, getattr. rewrite E. simpl.
  destruct l as [|p l]; [done|]. simpl.
  assert (exists q qs, split_colon p ++ flat_map split_colon l = q :: qs) as (q & qs & ->).
  { destruct p as [|c p]; simpl; [eauto|].
    destruct (Ascii.eqb c ":"%char); [eauto|]. destruct (split_colon p); simpl; eauto. }
  simpl. eexists. split; [done|]. unfold setattr. by rewrite lookup_insert_eq.
Qed.

Lemma from_env_config_none environ ns ename dflt :
  ns !! "config" = Some PNone ->
  exists ns', from_env environ ns "config" ename dflt (Some split_paths) = Ok ns'.
Proof.
  intros E. unfold from_env, getattr. rewrite E. simpl.
  unfold split_paths. simpl.
  destruct (String.eqb (default "" (environ !! ename)) ""); simpl; eauto.
Qed.

(** What the parser stores: the sub-parsers add attributes of their own
    and leave the top-level options alone. *)
Lemma parse_args_options args ns k :
  parse_args args = Ok ns ->
  k <> "cfunc" -> k <> "no_init" -> k <> "insecure_auto_join" -> k <> "target" ->
  ns !! k = parse_options args !! k.
Proof.
  intros E ? ? ? ?. unfold parse_args in E.
  destruct (opt_command args) as [[]|]; try case_bool_decide; simplify_eq;
    unfold setattr; by rewrite ?lookup_insert_ne.
Qed.

(** Reading an attribute of a namespace built by [setattr]s on literal
    names. *)
Ltac ns_lookup :=
  unfold setattr;
  repeat first [ rewrite lookup_insert_eq | rewrite lookup_insert_ne by done ];
  rewrite ?lookup_empty.

Lemma parse_options_config args :
  parse_options args !! "config" =
  Some (match opt_config args with [] => PNone | l => PList l end).
Proof. unfold parse_options. by ns_lookup. Qed.

Lemma parse_options_identity args :
  parse_options args !! "identity" = Some (opt_or_none (opt_identity args)).
Proof. unfold parse_options. by ns_lookup. Qed.

Lemma parse_options_username args :
  parse_options args !! "username" = Some (opt_or "Administrator" (opt_username args)).
Proof. unfold parse_options. by ns_lookup. Qed.

Lemma parse_options_password args :
  parse_options args !! "password" = Some (opt_or "" (opt_password args)).
Proof. unfold parse_options. by ns_lookup. Qed.

Lemma parse_options_debug_delay args :
  parse_options args !! "debug_delay" =
  Some (match opt_debug_delay args with Some z => PInt z | None => PNone end).
Proof. unfold parse_options. by ns_lookup. Qed.

Lemma parse_options_etc_passwd_path args :
  parse_options args !! "etc_passwd_path" =
  Some (opt_or "/etc/passwd" (opt_etc_passwd_path args)).
Proof. unfold parse_options. by ns_lookup. Qed.

Lemma parse_options_etc_group_path args :
  parse_options args !! "etc_group_path" =
  Some (opt_or "/etc/group" (opt_etc_group_path args)).
Proof. unfold parse_options. by ns_lookup. Qed.

Lemma res_bind_ok {A B} (a : A) (f : A -> res B) : (Ok a ≫= f) = f a.
Proof. reflexivity. Qed.

Section MainCli.
Context {builtins : Builtins}.

Lemma main_cli_parse args environ cli :
  main_cli args environ = Ok cli -> exists ns, parse_args args = Ok ns.
Proof.
  unfold main_cli. destruct (parse_args args) as [ns|e]; [eauto|done].
Qed.

Lemma main_cli_spec args environ ns :
  parse_args args = Ok ns ->
  exists cli,
    main_cli args environ = Ok cli
    /\ (forall k, k <> "config" -> k <> "identity" ->
                  k <> "username" -> k <> "password" -> cli !! k = ns !! k)
    /\ (opt_config args <> [] ->
        cli !! "config" = Some (PList (flat_map split_colon (opt_config args))))
    /\ cli !! "identity" =
       Some (match opt_identity args with
             | Some s => PStr (env_fallback environ "SAMBA_CONTAINER_ID" s)
             | None =>
                 if String.eqb (default "" (environ !! "SAMBA_CONTAINER_ID")) ""
                 then PNone
                 else PStr (default "" (environ !! "SAMBA_CONTAINER_ID"))
             end)
    /\ cli !! "username" =
       Some (PStr (env_fallback environ "JOIN_USERNAME"
                     (default "Administrator" (opt_username args))))
    /\ cli !! "password" =
       Some (PStr (env_fallback environ "INSECURE_JOIN_PASSWORD"
                     (default "" (opt_password args)))).
Proof.
  intros E. unfold main_cli. rewrite E, res_bind_ok.
  pose proof (fun k => parse_args_options args ns k E) as Hopt.
  (* config *)
  assert (exists ns1,
    from_env environ ns "config" "SAMBACC_CONFIG" (PStr DEFAULT_CONFIG) (Some split_paths)
      = Ok ns1
    /\ (opt_config args <> [] ->
        ns1 !! "config" = Some (PList (flat_map split_colon (opt_config args)))))
    as (ns1 & E1 & Hc1).
  { pose proof (Hopt "config") as Hk. rewrite parse_options_config in Hk.
    specialize (Hk ltac:(done) ltac:(done) ltac:(done) ltac:(done)).
    destruct (opt_config args) as [|p l] eqn:Ec.
    - destruct (from_env_config_none environ ns "SAMBACC_CONFIG" (PStr DEFAULT_CONFIG))
        as [ns1 E1]; [done|]. exists ns1. by split.
    - destruct (from_env_config_cli environ ns "SAMBACC_CONFIG" (PStr DEFAULT_CONFIG) (p :: l))
        as (ns1 & E1 & Hc1); [done|done|]. eauto. }
  rewrite E1, res_bind_ok.
  (* identity *)
  assert (exists ns2,
    from_env environ ns1 "identity" "SAMBA_CONTAINER_ID" PNone (Some py_str) = Ok ns2
    /\ ns2 !! "identity" =
       Some (match opt_identity args with
             | Some s => PStr (env_fallback environ "SAMBA_CONTAINER_ID" s)
             | None =>
                 if String.eqb (default "" (environ !! "SAMBA_CONTAINER_ID")) ""
                 then PNone
                 else PStr (default "" (environ !! "SAMBA_CONTAINER_ID"))
             end)) as (ns2 & E2 & Hi2).
  { assert (ns1 !! "identity" = Some (opt_or_none (opt_identity args))) as Hk.
    { rewrite (from_env_other _ _ _ _ _ _ _ "identity" E1) by done.
      rewrite (Hopt "identity") by done. apply parse_options_identity. }
    destruct (opt_identity args) as [s|]; simpl in Hk.
    - by apply from_env_str.
    - by apply from_env_none. }
  rewrite E2, res_bind_ok.
  (* username *)
  destruct (from_env_str environ ns2 "username" "JOIN_USERNAME" PNone
              (default "Administrator" (opt_username args))) as (ns3 & E3 & Hu3).
  { rewrite (from_env_other _ _ _ _ _ _ _ "username" E2) by done.
    rewrite (from_env_other _ _ _ _ _ _ _ "username" E1) by done.
    rewrite (Hopt "username") by done. apply parse_options_username. }
  rewrite E3, res_bind_ok.
  (* password *)
  destruct (from_env_str environ ns3 "password" "INSECURE_JOIN_PASSWORD" PNone
              (default "" (opt_password args))) as (ns4 & E4 & Hp4).
  { rewrite (from_env_other _ _ _ _ _ _ _ "password" E3) by done.
    rewrite (from_env_other _ _ _ _ _ _ _ "password" E2) by done.
    rewrite (from_env_other _ _ _ _ _ _ _ "password" E1) by done.
    rewrite (Hopt "password") by done. apply parse_options_password. }
  exists ns4. split; [done|]. split; [|split; [|split; [|split]]].
  - intros k ? ? ? ?.
    rewrite (from_env_other _ _ _ _ _ _ _ k E4) by done.
    rewrite (from_env_other _ _ _ _ _ _ _ k E3) by done.
    rewrite (from_env_other _ _ _ _ _ _ _ k E2) by done.
    by rewrite (from_env_other _ _ _ _ _ _ _ k E1) by done.
  - intros Hne.
    rewrite (from_env_other _ _ _ _ _ _ _ "config" E4) by done.
    rewrite (from_env_other _ _ _ _ _ _ _ "config" E3) by done.
    rewrite (from_env_other _ _ _ _ _ _ _ "config" E2) by done.
    auto.
  - rewrite (from_env_other _ _ _ _ _ _ _ "identity" E4) by done.
    by rewrite (from_env_other _ _ _ _ _ _ _ "identity" E3) by done.
  - by rewrite (from_env_other _ _ _ _ _ _ _ "username" E4) by done.
  - done.
Qed.
End MainCli.

(** ** Failing before anything is written *)

Lemma parse_args_cfunc args ns :
  parse_args args = Ok ns ->
  getattr ns "cfunc" (PFunc default_cfunc) = PFunc (command_cfunc (opt_command args)).
Proof.
  unfold parse_args, getattr. intros E.
  destruct (opt_command args) as [[]|]; try case_bool_decide; simplify_eq;
    unfold parse_options; by ns_lookup.
Qed.

Lemma parse_args_run args ns no_init auto_join target :
  parse_args args = Ok ns ->
  opt_command args = Some (cmd_run no_init auto_join target) ->
  target ∈ target_choices
  /\ ns !! "no_init" = Some (PBool no_init)
  /\ ns !! "insecure_auto_join" = Some (PBool auto_join)
  /\ ns !! "target" = Some (PStr target).
Proof.
  unfold parse_args. intros E Hc. rewrite Hc in E. case_bool_decide; [|done].
  simplify_eq.
  split; [done|]. repeat split; by ns_lookup.
Qed.

Section Quiet.
Context {A B : Type}.
Implicit Types (m : M A) (f : A -> M B) (w : world).

Lemma failed_bind_l m f w :
  failed_before_write (m w) w -> failed_before_write ((m ≫= f) w) w.
Proof.
  intros ([e He] & Hw & Hc). rewrite (bind_raised _ _ _ _ He). simpl.
  split; [eauto|]. done.
Qed.

Lemma failed_bind_r m f w :
  quiet (m w) w ->
  (forall file argv, outcome_of (m w) <> Replaced file argv) ->
  (forall a, outcome_of (m w) = Done a -> failed_before_write (f a w) w) ->
  failed_before_write ((m ≫= f) w) w.
Proof.
  intros [Hw Hc] Hr Hf. destruct (outcome_of (m w)) as [a|e|file argv] eqn:E.
  - rewrite (bind_done _ _ _ _ E). rewrite Hw.
    destruct (Hf a eq_refl) as ([e He] & Hw' & Hc'). simpl.
    split; [eauto|]. split; [done|]. by apply Forall_app.
  - rewrite (bind_raised _ _ _ _ E). simpl. split; [eauto|]. done.
  - by destruct (Hr file argv).
Qed.
End Quiet.

Lemma failed_raise {A} (e : exn) w :
  failed_before_write (Run (Raised e) w [] : run A) w.
Proof. split; [by exists e|]. split; [done|]. simpl. constructor. Qed.

Lemma attr_some (cli : Namespace) k v : cli !! k = Some v -> attr cli k = Ok v.
Proof. unfold attr. by intros ->. Qed.

Lemma attr_none (cli : Namespace) k :
  cli !! k = None -> attr cli k = Err (AttributeError k).
Proof. unfold attr. by intros ->. Qed.

(** One step of a run whose next action is an attribute access. *)
Ltac attr_step k :=
  let v := fresh "v" in
  let E := fresh "E" in
  match goal with
  | E : ?cli !! k = Some ?v |- context [ attr ?cli k ] =>
      rewrite (attr_some cli k v E), bind_lift_ok
  | E : ?cli !! k = None |- context [ attr ?cli k ] =>
      rewrite (attr_none cli k E), bind_lift_err
  | |- context [ attr ?cli k ] =>
      destruct (cli !! k) as [v|] eqn:E;
      [ rewrite (attr_some cli k v E), bind_lift_ok
      | rewrite (attr_none cli k E), bind_lift_err ]
  end.

Lemma merge_sources_absent docs (id : string) :
  Forall (fun doc : ConfigSet => doc !! id = None) docs ->
  merge_sources docs !! id = None.
Proof.
  unfold merge_sources. generalize (∅ : ConfigSet) (lookup_empty (M:=gmap string) (A:=InstanceConfig) id).
  induction docs as [|doc docs IH]; intros merged Hm Hd; simpl; [done|].
  inversion Hd; subst. apply IH; [|done].
  apply lookup_union_None. done.
Qed.

Lemma load_sources_elem sources cfgs docs :
  load_sources sources cfgs = Ok docs ->
  Forall (fun doc => exists p, p ∈ cfgs /\ sources !! p = Some doc) docs.
Proof.
  revert docs. induction cfgs as [|p ps IH]; intros docs; simpl.
  - intros [= <-]. constructor.
  - destruct (sources !! p) as [doc|] eqn:Ep; [|done].
    destruct (load_sources sources ps) as [docs'|e]; simpl; [|done].
    intros [= <-]. constructor.
    + exists p. split; [set_solver|done].
    + eapply Forall_impl; [by apply IH|]. intros d (q & Hq & Hd). exists q. set_solver.
Qed.

(** Looking the identity up when it is in none of the sources: whatever
    comes after is not reached. *)
Lemma lookup_absent (cli : Namespace) (k : InstanceConfig -> M unit) w :
  absent_from_sources cli w ->
  failed_before_write
    ((config ← lift (attr cli "config");
      let cfgs := py_or config (PList []) in
      cs ← read_config_files cfgs;
      identity ← lift (attr cli "identity");
      iconfig ← lift (config_get cs identity);
      k iconfig) w) w.
Proof.
  intros Habs. attr_step "config"; [|apply failed_raise]. cbv zeta.
  assert (config_sources cli = py_or v (PList [])) as Hsrc.
  { unfold config_sources, getattr. by rewrite E. }
  destruct (py_or v (PList [])) as [| | | |cfgs|] eqn:Ecfgs;
    try apply failed_raise.
  unfold read_config_files.
  apply failed_bind_r.
  - split; [|by rewrite calls_of_invoke; repeat constructor].
    unfold invoke. destruct (w_faults w _); [done|].
    by destruct (load_sources (w_sources w) cfgs).
  - intros. apply invoke_not_replaced.
  - intros cs Hcs. apply invoke_done_inv in Hcs as [_ Hcs].
    destruct (load_sources (w_sources w) cfgs) as [docs|e] eqn:El; simpl in Hcs; [|done].
    injection Hcs as <- _.
    attr_step "identity"; [|apply failed_raise]. rename v0 into identity.
    assert (exists e, config_get (merge_sources docs) identity = Err e) as [e ->].
    { destruct identity as [| | |id| |]; simpl; eauto.
      rewrite merge_sources_absent; [eauto|].
      eapply Forall_impl; [by apply load_sources_elem|]. simpl.
      intros doc (p & Hp & Hdoc). eapply Habs; eauto. }
    apply failed_raise.
Qed.

Section MissingIdentity.
Context {builtins : Builtins} {policy : ResolutionPolicy}.

Lemma print_config_absent cli w :
  absent_from_sources cli w -> failed_before_write (print_config cli w) w.
Proof. apply lookup_absent. Qed.

Lemma import_users_absent cli w :
  absent_from_sources cli w -> failed_before_write (import_users cli w) w.
Proof. apply lookup_absent. Qed.

Lemma import_config_absent cli w :
  absent_from_sources cli w -> failed_before_write (import_config cli w) w.
Proof.
  intros Habs. unfold import_config. apply failed_bind_r.
  - unfold ensure_samba_dirs. split; [|by rewrite calls_of_invoke; repeat constructor].
    unfold invoke. by destruct (w_faults w _).
  - intros. apply invoke_not_replaced.
  - intros _ _. by apply lookup_absent.
Qed.

Lemma init_container_absent cli w :
  absent_from_sources cli w -> failed_before_write (init_container cli w) w.
Proof. intros Habs. apply failed_bind_l. by apply import_config_absent. Qed.

Lemma run_container_absent cli w :
  absent_from_sources cli w ->
  truthy (getattr cli "no_init" (PBool false)) = false ->
  failed_before_write (run_container cli w) w.
Proof.
  intros Habs Hni. unfold run_container. rewrite Hni. simpl negb. cbv iota.
  apply failed_bind_l. by apply init_container_absent.
Qed.

Lemma pre_action_quiet cli w :
  quiet (pre_action cli w) w
  /\ forall file argv, outcome_of (pre_action cli w) <> Replaced file argv.
Proof.
  unfold pre_action. attr_step "debug_delay"; [|by repeat split; try constructor].
  destruct (truthy v); [|by repeat split; try constructor].
  rewrite bind_lift_ok.
  destruct (py_int v) as [seconds|e]; [rewrite bind_lift_ok|rewrite bind_lift_err];
    [|by repeat split; try constructor].
  unfold sleep. destruct (seconds <? 0); [by repeat split; try constructor|].
  split; [split|].
  - unfold invoke. by destruct (w_faults w _).
  - rewrite calls_of_invoke. by repeat constructor.
  - intros. apply invoke_not_replaced.
Qed.

Lemma main_no_identity args environ w :
  no_identity_supplied args environ ->
  failed_before_write (main args environ w) w /\ calls_of (main args environ w) = [].
Proof.
  intros [Hcli Henv]. unfold main.
  destruct (parse_args args) as [ns|e] eqn:Ep.
  - destruct (main_cli_spec args environ ns Ep) as (cli & -> & _ & _ & Hi & _).
    rewrite bind_lift_ok. unfold env_fallback in Hi. rewrite Henv in Hi.
    destruct (opt_identity args) as [s|]; simpl in Hcli; subst; simpl in Hi;
      attr_step "identity"; simpl; (split; [apply failed_raise|done]).
  - assert (main_cli args environ = Err e) as ->.
    { unfold main_cli. by rewrite Ep. }
    rewrite bind_lift_err. split; [apply failed_raise|done].
Qed.

Lemma main_absent args environ w cli :
  main_cli args environ = Ok cli ->
  absent_from_sources cli w ->
  reads_config (opt_command args) = true ->
  failed_before_write (main args environ w) w.
Proof.
  intros Ecli Habs Hcmd. unfold main. rewrite Ecli, bind_lift_ok.
  attr_step "identity"; [|apply failed_raise].
  destruct (truthy v); simpl; [|apply failed_raise].
  destruct (pre_action_quiet cli w) as [Hq Hr].
  apply failed_bind_r; [done..|]. intros _ _.
  destruct (main_cli_parse _ _ _ Ecli) as [ns Ep].
  destruct (main_cli_spec args environ ns Ep) as (cli' & Ecli' & Hother & _).
  rewrite Ecli in Ecli'. injection Ecli' as <-.
  assert (getattr cli "cfunc" (PFunc default_cfunc)
          = PFunc (command_cfunc (opt_command args))) as ->.
  { rewrite <- (parse_args_cfunc args ns Ep). unfold getattr.
    by rewrite Hother. }
  destruct (opt_command args) as [[]|] eqn:Ec; simpl in *;
    auto using print_config_absent, import_config_absent, import_users_absent,
               init_container_absent.
  - apply run_container_absent; [done|].
    destruct (parse_args_run _ _ _ _ _ Ep Ec) as (_ & Hni & _).
    unfold getattr. rewrite Hother, Hni by done. simpl.
    by destruct no_init.
  - done.
Qed.
End MissingIdentity.

(** ** Calls a program can make *)

Section Traced.
Context (P : call -> Prop).

Lemma traced_ret {A} (a : A) : traced P (mret a).
Proof. intros w. split; [constructor|done]. Qed.

Lemma traced_raise {A} (e : exn) : traced P (raise e : M A).
Proof. intros w. split; [constructor|done]. Qed.

Lemma traced_lift {A} (r : res A) : traced P (lift r).
Proof. destruct r; [apply traced_ret|apply traced_raise]. Qed.

Lemma traced_invoke {A} c (effect : world -> res (A * world)) :
  P c -> traced P (invoke c effect).
Proof.
  intros Hc w. split.
  - rewrite calls_of_invoke. by repeat constructor.
  - intros file argv Hr. by apply invoke_not_replaced in Hr.
Qed.

Lemma traced_execvp file argv : P (c_execvp file argv) -> traced P (execvp file argv).
Proof.
  intros Hc w. split.
  - rewrite calls_of_execvp. by repeat constructor.
  - intros file' argv' Hr. apply execvp_replaced_inv in Hr as [-> ->].
    exists []. by rewrite calls_of_execvp.
Qed.

Lemma traced_bind {A B} (m : M A) (f : A -> M B) :
  traced P m -> (forall a, traced P (f a)) -> traced P (m ≫= f).
Proof.
  intros Hm Hf w. destruct (Hm w) as [Hc Hr]. split.
  - apply bind_calls_Forall; [done|]. intros a. apply Hf.
  - intros file argv E. apply bind_replaced_inv in E as [E|(a & Ea & E)].
    + rewrite (bind_replaced _ _ _ _ _ E). simpl. by apply Hr.
    + rewrite (bind_done _ _ _ _ Ea). simpl.
      destruct (Hf a (world_of (m w))) as [_ Hr']. destruct (Hr' _ _ E) as [t ->].
      exists (calls_of (m w) ++ t). by rewrite app_assoc.
Qed.

Lemma traced_if {A} (b : bool) (m1 m2 : M A) :
  traced P m1 -> traced P m2 -> traced P (if b then m1 else m2).
Proof. by destruct b. Qed.

Lemma traced_for_each {A} (xs : list A) (body : A -> M unit) :
  (forall x, traced P (body x)) -> traced P (for_each xs body).
Proof.
  intros Hb. induction xs as [|x xs IH]; simpl.
  - apply traced_ret.
  - apply traced_bind; [apply Hb|]. intros _. apply IH.
Qed.

Lemma traced_read_config_files cfgs :
  (forall l, P (c_read_config_files l)) -> traced P (read_config_files cfgs).
Proof.
  intros HP. destruct cfgs; try apply traced_raise. by apply traced_invoke.
Qed.

Lemma traced_passwd_read path :
  (forall p, P (c_passwd_read p)) -> traced P (passwd_read path).
Proof.
  intros HP. apply traced_bind; [apply traced_lift|]. intros p. by apply traced_invoke.
Qed.

Lemma traced_group_read path :
  (forall p, P (c_group_read p)) -> traced P (group_read path).
Proof.
  intros HP. apply traced_bind; [apply traced_lift|]. intros p. by apply traced_invoke.
Qed.

Lemma traced_passwd_write path entries :
  (forall p, P (c_passwd_write p)) -> traced P (passwd_write path entries).
Proof.
  intros HP. apply traced_bind; [apply traced_lift|]. intros p. by apply traced_invoke.
Qed.

Lemma traced_group_write path entries :
  (forall p, P (c_group_write p)) -> traced P (group_write path entries).
Proof.
  intros HP. apply traced_bind; [apply traced_lift|]. intros p. by apply traced_invoke.
Qed.

Lemma traced_sleep seconds : P (c_sleep seconds) -> traced P (sleep seconds).
Proof.
  intros HP. unfold sleep. destruct (seconds <? 0); [apply traced_raise|].
  by apply traced_invoke.
Qed.
End Traced.

Lemma traced_not_replaced {A} (P : call -> Prop) (m : M A) w file argv :
  traced P m -> ~ P (c_execvp file argv) ->
  outcome_of (m w) <> Replaced file argv.
Proof.
  intros Hm HP E. destruct (Hm w) as [Hc Hr]. destruct (Hr _ _ E) as [t Ht].
  rewrite Ht in Hc. apply Forall_app in Hc as [_ Hc]. by inversion Hc.
Qed.

Create HintDb traced.

#[local] Hint Resolve traced_ret traced_raise traced_lift traced_invoke
  traced_execvp traced_if traced_for_each traced_read_config_files
  traced_passwd_read traced_group_read traced_passwd_write traced_group_write
  traced_sleep : traced.

(** Splits a program into its steps. *)
Ltac traced_steps :=
  repeat first
    [ apply traced_bind; [|intros ?]
    | progress cbv zeta ];
  eauto with traced.

Section TracedMain.
Context {builtins : Builtins} {policy : ResolutionPolicy}.
Context (P : call -> Prop).

Lemma traced_print_config cli :
  (forall l, P (c_read_config_files l)) ->
  (forall i, P (c_template_config i)) ->
  traced P (print_config cli).
Proof. intros. unfold print_config, template_config. traced_steps. Qed.

Lemma traced_import_config cli :
  P c_ensure_samba_dirs ->
  (forall l, P (c_read_config_files l)) ->
  (forall i, P (c_net_import_config i)) ->
  traced P (import_config cli).
Proof.
  intros. unfold import_config, ensure_samba_dirs, net_import_config. traced_steps.
Qed.

Lemma traced_import_users cli :
  (forall l, P (c_read_config_files l)) ->
  (forall p, P (c_passwd_read p)) -> (forall p, P (c_group_read p)) ->
  (forall p, P (c_passwd_write p)) -> (forall p, P (c_group_write p)) ->
  (forall u, P (c_passdb_add_user u)) ->
  traced P (import_users cli).
Proof.
  intros. unfold import_users. traced_steps.
Qed.

Lemma traced_init_nsswitch :
  (forall p, P (c_nss_read p)) -> (forall p, P (c_nss_write p)) ->
  traced P init_nsswitch.
Proof. intros. unfold init_nsswitch, nss_read, nss_write. traced_steps. Qed.

Lemma traced_join cli :
  (forall u p, P (c_join u p)) -> traced P (join cli).
Proof. intros. unfold join, joiner_join. traced_steps. Qed.
End TracedMain.

(** ** Running a program step by step *)

Lemma res_bind_err {A B} (e : exn) (f : A -> res B) : (Err e ≫= f) = Err e.
Proof. reflexivity. Qed.

Lemma bind_assoc {A B C} (m : M A) (g : A -> M B) (f : B -> M C) w :
  ((m ≫= g) ≫= f) w = (m ≫= (fun a => g a ≫= f)) w.
Proof.
  unfold mbind, M_bind. destruct (outcome_of (m w)); simpl; [|done|done].
  destruct (outcome_of (g a _)); simpl; by rewrite ?app_assoc.
Qed.

Lemma bind_invoke {A B} c (effect : world -> res (A * world)) (f : A -> M B) w :
  (invoke c effect ≫= f) w =
  if w_faults w c then Run (Raised (ExternalFailure c)) w [c]
  else match effect w with
       | Ok (a, w') =>
           Run (outcome_of (f a w')) (world_of (f a w')) (c :: calls_of (f a w'))
       | Err e => Run (Raised e) w [c]
       end.
Proof.
  unfold mbind, M_bind, invoke. destruct (w_faults w c); [done|].
  by destruct (effect w) as [[a w']|e].
Qed.

Lemma run_invoke {A} c (effect : world -> res (A * world)) w :
  invoke c effect w =
  if w_faults w c then Run (Raised (ExternalFailure c)) w [c]
  else match effect w with
       | Ok (a, w') => Run (Done a) w' [c]
       | Err e => Run (Raised e) w [c]
       end.
Proof. reflexivity. Qed.

Lemma bind_execvp {B} file argv (f : unit -> M B) w :
  (execvp file argv ≫= f) w =
  if w_faults w (c_execvp file argv)
  then Run (Raised (ExternalFailure (c_execvp file argv))) w [c_execvp file argv]
  else Run (Replaced file argv) w [c_execvp file argv].
Proof. unfold mbind, M_bind, execvp. by destruct (w_faults w _). Qed.

(** One step of symbolic execution of the program in the goal. *)
Ltac exec_step :=
  first
    [ rewrite bind_assoc
    | rewrite bind_lift_ok
    | rewrite bind_lift_err
    | rewrite bind_ret
    | rewrite bind_raise
    | rewrite res_bind_ok
    | rewrite res_bind_err
    | rewrite bind_invoke; cbv beta
    | rewrite run_invoke; cbv beta
    | progress cbn [outcome_of world_of calls_of set_registry set_passwd set_group
                    set_passdb set_nsswitch w_sources w_registry w_passwd w_group
                    w_passdb w_nsswitch w_faults as_path]
    | progress cbv zeta
    | match goal with
      | H : ?x = Ok _ |- context [ ?x ] => rewrite H
      | H : ?x = Some _ |- context [ ?x ] => rewrite H
      | H : w_faults ?w ?c = _ |- context [ w_faults ?w ?c ] => rewrite H
      | H : forall c, w_faults ?w c = false |- context [ w_faults ?w ?c ] =>
          rewrite (H c)
      end
    | match goal with
      | |- context [ attr ?cli ?k ] => attr_step k
      | |- context [ if w_faults ?w ?c then _ else _ ] =>
          let F := fresh "Hfault" in destruct (w_faults w c) eqn:F
      | |- context [ mbind _ (lift ?r) _ ] =>
          lazymatch r with
          | Ok _ => fail
          | Err _ => fail
          | _ => let E := fresh "E" in destruct r eqn:E
          end
      | |- context [ mbind _ ?r ] =>
          lazymatch type of r with
          | res _ =>
              lazymatch r with
              | Ok _ => fail
              | Err _ => fail
              | _ => let E := fresh "E" in destruct r eqn:E
              end
          end
      | |- context [ match ?x with Some _ => _ | None => _ end ] =>
          let E := fresh "E" in destruct x eqn:E
      end ].

Ltac exec := repeat exec_step.

Lemma attr_ok_inv (cli : Namespace) k v : attr cli k = Ok v -> cli !! k = Some v.
Proof. unfold attr. destruct (cli !! k); congruence. Qed.

Lemma as_path_ok v p : as_path v = Ok p -> v = PStr p.
Proof. destruct v; simpl; congruence. Qed.

Lemma bind_passdb_add_user {B} u (f : unit -> M B) w :
  (passdb_add_user u ≫= f) w =
  if w_faults w (c_passdb_add_user (user_name u))
  then Run (Raised (ExternalFailure (c_passdb_add_user (user_name u)))) w
           [c_passdb_add_user (user_name u)]
  else
    let w' := set_passdb (<[user_name u := user_password u]> (w_passdb w)) w in
    Run (outcome_of (f tt w')) (world_of (f tt w'))
        (c_passdb_add_user (user_name u) :: calls_of (f tt w')).
Proof. unfold passdb_add_user. by rewrite bind_invoke. Qed.

Lemma for_each_passdb_done us w :
  outcome_of (for_each us passdb_add_user w) = Done tt ->
  calls_of (for_each us passdb_add_user w)
    = map (fun u => c_passdb_add_user (user_name u)) us
  /\ world_of (for_each us passdb_add_user w)
     = set_passdb (upsert_all us (w_passdb w)) w.
Proof.
  revert w. induction us as [|u us IH]; intros w; simpl.
  - intros _. split; [done|]. by destruct w.
  - rewrite bind_passdb_add_user.
    destruct (w_faults w _); [done|]. cbv zeta. cbn [outcome_of world_of calls_of].
    intros Hd. destruct (IH _ Hd) as [-> ->]. split; [done|].
    by destruct w.
Qed.

Lemma for_each_passdb_ok us w :
  (forall u, w_faults w (c_passdb_add_user u) = false) ->
  outcome_of (for_each us passdb_add_user w) = Done tt.
Proof.
  revert w. induction us as [|u us IH]; intros w Hf; simpl; [done|].
  rewrite bind_passdb_add_user, Hf. cbv zeta.
  cbn [outcome_of]. apply IH. intros u'. exact (Hf u').
Qed.

Section Exec.
Context {builtins : Builtins} {policy : ResolutionPolicy}.

Lemma import_config_done cli w :
  outcome_of (import_config cli w) = Done tt ->
  exists l i,
    calls_of (import_config cli w) =
    [c_ensure_samba_dirs; c_read_config_files l; c_net_import_config i].
Proof.
  unfold import_config, ensure_samba_dirs, read_config_files, net_import_config.
  exec; try discriminate.
  destruct (py_or v (PList [])); exec; try discriminate. eauto.
Qed.

Lemma import_users_done cli w :
  outcome_of (import_users cli w) = Done tt ->
  exists cfgs pp gp iconfig,
    selected_config cli w = Some iconfig
    /\ cli !! "etc_passwd_path" = Some (PStr pp)
    /\ cli !! "etc_group_path" = Some (PStr gp)
    /\ calls_of (import_users cli w) =
       [c_read_config_files cfgs; c_passwd_read pp; c_group_read gp;
        c_passwd_write pp; c_group_write gp]
       ++ map (fun u => c_passdb_add_user (user_name u)) (ic_users iconfig)
    /\ w_passdb (world_of (import_users cli w))
       = upsert_all (ic_users iconfig) (w_passdb w).
Proof.
  generalize (eq_refl (import_users cli w)).
  generalize (import_users cli w) at 1 3 4 5 as r.
  intros r.
  unfold import_users, read_config_files, passwd_read, group_read,
    passwd_write, group_write.
  exec; try (intros ->; discriminate).
  destruct (py_or v (PList [])) eqn:Ecfg; exec; try (intros ->; discriminate).
  intros ->. cbn [outcome_of world_of calls_of].
  intros Hd. apply for_each_passdb_done in Hd as [-> ->].
  repeat match goal with
         | H : as_path _ = Ok _ |- _ => apply as_path_ok in H as ->
         | H : attr _ _ = Ok _ |- _ => apply attr_ok_inv in H
         end.
  eexists _, _, _, _. split; [|done].
  unfold selected_config, config_sources, getattr.
  repeat match goal with
         | H : cli !! _ = Some _ |- _ => rewrite H; clear H
         | H : py_or _ _ = _ |- _ => simpl; rewrite H; clear H
         | H : load_sources _ _ = _ |- _ => rewrite H; clear H
         | H : config_get _ _ = _ |- _ => rewrite H; clear H
         end.
  done.
Qed.
End Exec.

(** ** The name-service switch loader *)

Section Nsswitch.
Context {policy : ResolutionPolicy}.

Lemma insert_module_count modules :
  count_occ string_dec (insert_module modules) required_module
  = S (count_occ string_dec modules required_module).
Proof.
  induction modules as [|m ms IH]; cbn [insert_module count_occ].
  - by destruct (string_dec required_module required_module).
  - destruct (is_fallback m); cbn [count_occ].
    + by destruct (string_dec required_module required_module).
    + destruct (string_dec m required_module); by rewrite IH.
Qed.

Lemma insert_module_others modules :
  filter (fun m => m ≠ required_module) (insert_module modules)
  = filter (fun m => m ≠ required_module) modules.
Proof.
  induction modules as [|m ms IH]; cbn [insert_module].
  - by rewrite filter_cons_False by (intros ?; done).
  - destruct (is_fallback m).
    + by rewrite (filter_cons_False _ required_module) by (intros ?; done).
    + rewrite !(filter_cons _ m). by rewrite IH.
Qed.

Lemma has_module_false_count d :
  has_module d = false ->
  count_occ string_dec (nss_modules d) required_module = 0%nat
  /\ filter (fun m => m ≠ required_module) (nss_modules d) = nss_modules d.
Proof.
  unfold has_module. induction (nss_modules d) as [|m ms IH];
    cbn [existsb count_occ]; [done|].
  destruct (String.eqb_spec required_module m) as [Heq|Hne]; [done|].
  intros Hms. destruct (IH Hms) as [Hc Hf].
  destruct (string_dec m required_module); [congruence|].
  split; [done|]. rewrite filter_cons_True by congruence. by rewrite Hf.
Qed.

Lemma has_module_insert modules :
  existsb (String.eqb required_module) (insert_module modules) = true.
Proof.
  induction modules as [|m ms IH]; cbn [insert_module existsb].
  - by rewrite String.eqb_refl.
  - destruct (is_fallback m); cbn [existsb].
    + by rewrite String.eqb_refl.
    + rewrite IH. apply orb_true_r.
Qed.

Lemma ensure_directive_ensured d : ensured d (ensure_directive d).
Proof.
  unfold ensured, ensure_directive.
  destruct (identity_db d && negb (has_module d)) eqn:E; [|done].
  apply andb_true_iff in E as [_ E]. apply negb_true_iff in E.
  destruct (has_module_false_count d E) as [Hc Hf].
  split; [done|]. simpl. split.
  - by rewrite insert_module_count, Hc.
  - by rewrite insert_module_others.
Qed.

Lemma ensure_directive_enabled d :
  implb (identity_db (ensure_directive d)) (has_module (ensure_directive d)) = true.
Proof.
  unfold ensure_directive.
  destruct (identity_db d) eqn:Ei, (has_module d) eqn:Eh; simpl;
    rewrite ?Ei, ?Eh; try done.
  unfold identity_db in *. simpl. rewrite Ei. simpl.
  unfold has_module. simpl. apply has_module_insert.
Qed.

Lemma ensure_winbind_enabled_enabled lines :
  winbind_enabled (ensure_winbind_enabled lines) = true.
Proof.
  unfold winbind_enabled, ensure_winbind_enabled.
  induction lines as [|d ds IH]; simpl; [done|].
  by rewrite ensure_directive_enabled, IH.
Qed.

Lemma ensure_winbind_enabled_ensured lines :
  Forall2 ensured lines (ensure_winbind_enabled lines).
Proof.
  induction lines as [|d ds IH]; simpl; constructor; [|done].
  apply ensure_directive_ensured.
Qed.

Lemma ensure_directive_id d :
  implb (identity_db d) (has_module d) = true -> ensure_directive d = d.
Proof.
  unfold ensure_directive. by destruct (identity_db d), (has_module d).
Qed.

Lemma ensure_winbind_enabled_id lines :
  winbind_enabled lines = true -> ensure_winbind_enabled lines = lines.
Proof.
  unfold winbind_enabled, ensure_winbind_enabled.
  induction lines as [|d ds IH]; simpl; [done|].
  intros [Hd Hds]%andb_true_iff. by rewrite ensure_directive_id, IH.
Qed.
End Nsswitch.

Section InitNsswitch.
Context {policy : ResolutionPolicy}.

Lemma init_nsswitch_run w lines :
  w_nsswitch w !! nsswitch_conf = Some lines ->
  w_faults w (c_nss_read nsswitch_conf) = false ->
  w_faults w (c_nss_write nsswitch_conf) = false ->
  init_nsswitch w =
  if winbind_enabled lines
  then Run (Done tt) w [c_nss_read nsswitch_conf]
  else Run (Done tt)
           (set_nsswitch (<[nsswitch_conf := ensure_winbind_enabled lines]> (w_nsswitch w)) w)
           [c_nss_read nsswitch_conf; c_nss_write nsswitch_conf].
Proof.
  intros Hl Hr Hw. unfold init_nsswitch, nss_read, nss_write, nsswitch_conf in *.
  exec. destruct (winbind_enabled lines); simpl; exec; done.
Qed.

Lemma init_nsswitch_done w :
  outcome_of (init_nsswitch w) = Done tt ->
  exists t, calls_of (init_nsswitch w) = c_nss_read nsswitch_conf :: t.
Proof.
  unfold init_nsswitch, nss_read, nss_write, nsswitch_conf. exec; try discriminate.
  destruct (winbind_enabled l); simpl; exec; eauto.
Qed.
End InitNsswitch.

(** ** The order of the reconcilers *)

Lemma steps_replicate s calls :
  Forall (of_step s) calls ->
  omap step_of calls = replicate (List.length (omap step_of calls)) s.
Proof.
  induction 1 as [|c calls [Hc|Hc] _ IH]; simpl; [done|..]; rewrite Hc; simpl;
    by f_equal.
Qed.

Section Order.
Context {builtins : Builtins} {policy : ResolutionPolicy}.

Lemma import_config_steps cli w :
  Forall (of_step registry_step) (calls_of (import_config cli w)).
Proof.
  apply (traced_import_config (of_step registry_step));
    intros; unfold of_step; simpl; auto.
Qed.

Lemma import_users_steps cli w :
  Forall (of_step identity_step) (calls_of (import_users cli w)).
Proof.
  apply (traced_import_users (of_step identity_step));
    intros; unfold of_step; simpl; auto.
Qed.

Lemma init_nsswitch_steps w :
  Forall (of_step resolution_step) (calls_of (init_nsswitch w)).
Proof.
  apply (traced_init_nsswitch (of_step resolution_step));
    intros; unfold of_step; simpl; auto.
Qed.
End Order.

(** ** What a completed step did *)

Lemma run_eq {A} (r : run A) o w c :
  outcome_of r = o -> world_of r = w -> calls_of r = c -> r = Run o w c.
Proof. by intros <- <- <-. Qed.

Lemma steps_passdb (us : list User) :
  omap step_of (map (fun u => c_passdb_add_user (user_name u)) us)
  = replicate (List.length us) identity_step.
Proof. induction us as [|u us IH]; simpl; [done|]. f_equal. exact IH. Qed.

Section Returns.
Context {builtins : Builtins} {policy : ResolutionPolicy}.

Lemma import_config_returns cli w :
  outcome_of (import_config cli w) = Done tt ->
  exists cfgs iconfig,
    config_sources cli = PList cfgs
    /\ selected_config cli w = Some iconfig
    /\ import_config cli w =
       Run (Done tt)
           (set_registry (apply_settings (ic_settings iconfig) (w_registry w)) w)
           [c_ensure_samba_dirs; c_read_config_files cfgs;
            c_net_import_config (ic_identity iconfig)].
Proof.
  generalize (eq_refl (import_config cli w)).
  generalize (import_config cli w) at 1 3 4 as r.
  intros r.
  unfold import_config, ensure_samba_dirs, read_config_files, net_import_config.
  exec; try (intros ->; discriminate).
  destruct (py_or v (PList [])) eqn:Ecfg; exec; try (intros ->; discriminate).
  intros -> _.
  repeat match goal with
         | H : attr _ _ = Ok _ |- _ => apply attr_ok_inv in H
         end.
  eexists _, _. split; [|split; [|reflexivity]].
  - unfold config_sources, getattr.
    match goal with H : cli !! "config" = Some _ |- _ => rewrite H end.
    exact Ecfg.
  - unfold selected_config.
    repeat match goal with
           | H : cli !! _ = Some _ |- _ => rewrite H; clear H
           | H : py_or _ _ = _ |- _ => rewrite H; clear H
           | H : load_sources _ _ = _ |- _ => rewrite H; clear H
           | H : config_get _ _ = _ |- _ => rewrite H; clear H
           end.
    done.
Qed.

Lemma import_users_returns cli w :
  outcome_of (import_users cli w) = Done tt ->
  exists cfgs pp gp iconfig passwd_lines group_lines,
    config_sources cli = PList cfgs
    /\ selected_config cli w = Some iconfig
    /\ cli !! "etc_passwd_path" = Some (PStr pp)
    /\ cli !! "etc_group_path" = Some (PStr gp)
    /\ w_passwd w !! pp = Some passwd_lines
    /\ w_group w !! gp = Some group_lines
    /\ import_users cli w =
       Run (Done tt)
           (World (w_sources w) (w_registry w)
              (<[pp := foldl passwd_add_user passwd_lines (ic_users iconfig)]>
                 (w_passwd w))
              (<[gp := foldl group_add_group group_lines (ic_groups iconfig)]>
                 (w_group w))
              (upsert_all (ic_users iconfig) (w_passdb w))
              (w_nsswitch w) (w_faults w))
           ([c_read_config_files cfgs; c_passwd_read pp; c_group_read gp;
             c_passwd_write pp; c_group_write gp]
            ++ map (fun u => c_passdb_add_user (user_name u)) (ic_users iconfig)).
Proof.
  generalize (eq_refl (import_users cli w)).
  generalize (import_users cli w) at 1 3 4 as r.
  intros r.
  unfold import_users, read_config_files, passwd_read, group_read,
    passwd_write, group_write.
  exec; try (intros ->; discriminate).
  destruct (py_or v (PList [])) eqn:Ecfg; exec; try (intros ->; discriminate).
  intros ->. cbn [outcome_of world_of calls_of].
  intros Hd. pose proof (for_each_passdb_done _ _ Hd) as [Hcalls Hworld].
  repeat match goal with
         | H : as_path _ = Ok _ |- _ => apply as_path_ok in H as ->
         | H : attr _ _ = Ok _ |- _ => apply attr_ok_inv in H
         end.
  eexists _, _, _, _, _, _.
  split; [|split; [|split; [reflexivity|split; [reflexivity|
    split; [eassumption|split; [eassumption|]]]]]].
  - unfold config_sources, getattr.
    match goal with H : cli !! "config" = Some _ |- _ => rewrite H end.
    exact Ecfg.
  - unfold selected_config.
    repeat match goal with
           | H : cli !! "config" = Some _ |- _ => rewrite H; clear H
           | H : cli !! "identity" = Some _ |- _ => rewrite H; clear H
           | H : py_or _ _ = _ |- _ => rewrite H; clear H
           | H : load_sources _ _ = _ |- _ => rewrite H; clear H
           | H : config_get _ _ = _ |- _ => rewrite H; clear H
           end.
    reflexivity.
  - apply run_eq; cbn [outcome_of world_of calls_of].
    + exact Hd.
    + by rewrite Hworld.
    + by rewrite Hcalls.
Qed.

Lemma init_nsswitch_returns w :
  outcome_of (init_nsswitch w) = Done tt ->
  exists lines,
    w_nsswitch w !! nsswitch_conf = Some lines
    /\ init_nsswitch w =
       if winbind_enabled lines
       then Run (Done tt) w [c_nss_read nsswitch_conf]
       else Run (Done tt)
              (set_nsswitch
                 (<[nsswitch_conf := ensure_winbind_enabled lines]> (w_nsswitch w)) w)
              [c_nss_read nsswitch_conf; c_nss_write nsswitch_conf].
Proof.
  unfold init_nsswitch, nss_read, nss_write, nsswitch_conf.
  exec; try discriminate.
  exists l. split; [done|].
  destruct (winbind_enabled l); simpl in *; [done|].
  unfold invoke in *.
  destruct (w_faults w (c_nss_write "/etc/nsswitch.conf")); [discriminate|done].
Qed.

(** A completed [init_container] is the three steps, each run once and
    to its end, on the world the previous one left. *)
Lemma init_container_returns cli w :
  outcome_of (init_container cli w) = Done tt ->
  exists cfgs pp gp iconfig passwd_lines group_lines lines,
    config_sources cli = PList cfgs
    /\ selected_config cli w = Some iconfig
    /\ cli !! "etc_passwd_path" = Some (PStr pp)
    /\ cli !! "etc_group_path" = Some (PStr gp)
    /\ w_passwd w !! pp = Some passwd_lines
    /\ w_group w !! gp = Some group_lines
    /\ w_nsswitch w !! nsswitch_conf = Some lines
    /\ init_container cli w =
       Run (Done tt)
           (initialised iconfig pp gp passwd_lines group_lines lines w)
           ([c_ensure_samba_dirs; c_read_config_files cfgs;
             c_net_import_config (ic_identity iconfig)]
            ++ ([c_read_config_files cfgs; c_passwd_read pp; c_group_read gp;
                 c_passwd_write pp; c_group_write gp]
                ++ map (fun u => c_passdb_add_user (user_name u)) (ic_users iconfig))
            ++ c_nss_read nsswitch_conf
               :: (if winbind_enabled lines then []
                   else [c_nss_write nsswitch_conf])).
Proof.
  unfold init_container. intros E.
  apply bind_done_inv in E as ([] & E1 & E).
  apply bind_done_inv in E as ([] & E2 & E3).
  rewrite (bind_done _ _ _ _ E1), (bind_done _ _ _ _ E2).
  cbn [outcome_of world_of calls_of].
  destruct (import_config_returns _ _ E1) as (cfgs & iconfig & Hcfgs & Hsel & R1).
  rewrite R1 in E2, E3 |- *. cbn [outcome_of world_of calls_of] in E2, E3 |- *.
  destruct (import_users_returns _ _ E2)
    as (cfgs' & pp & gp & iconfig' & pw & gr & Hcfgs' & Hsel' & Hpp & Hgp & Hpw & Hgr & R2).
  rewrite Hcfgs in Hcfgs'. injection Hcfgs' as <-.
  change (selected_config cli w = Some iconfig') in Hsel'.
  rewrite Hsel in Hsel'. injection Hsel' as <-.
  rewrite R2 in E3 |- *. cbn [outcome_of world_of calls_of] in E3 |- *.
  destruct (init_nsswitch_returns _ E3) as (lines & Hl & R3).
  rewrite R3.
  exists cfgs, pp, gp, iconfig, pw, gr, lines.
  do 7 (split; [done|]).
  unfold initialised. by destruct (winbind_enabled lines).
Qed.

(** The calls of [init_container], step by step: a step that did not
    return leaves the later ones without a call. *)
Lemma init_container_phases cli w :
  exists c1 c2 c3,
    calls_of (init_container cli w) = c1 ++ c2 ++ c3
    /\ Forall (of_step registry_step) c1
    /\ Forall (of_step identity_step) c2
    /\ Forall (of_step resolution_step) c3
    /\ (c2 <> [] \/ c3 <> [] -> outcome_of (import_config cli w) = Done tt)
    /\ (c3 <> [] ->
        outcome_of (import_users cli (world_of (import_config cli w))) = Done tt).
Proof.
  unfold init_container.
  destruct (outcome_of (import_config cli w)) as [[]|e|file argv] eqn:E1.
  - rewrite (bind_done _ _ _ _ E1). cbn [outcome_of calls_of].
    set (w1 := world_of (import_config cli w)).
    destruct (outcome_of (import_users cli w1)) as [[]|e|file argv] eqn:E2.
    + rewrite (bind_done _ _ _ _ E2). cbn [outcome_of calls_of].
      exists (calls_of (import_config cli w)), (calls_of (import_users cli w1)),
        (calls_of (init_nsswitch (world_of (import_users cli w1)))).
      split; [done|]. split; [apply import_config_steps|].
      split; [apply import_users_steps|]. split; [apply init_nsswitch_steps|]. done.
    + rewrite (bind_raised _ _ _ _ E2). cbn [outcome_of calls_of].
      exists (calls_of (import_config cli w)), (calls_of (import_users cli w1)), [].
      rewrite app_nil_r. split; [done|]. split; [apply import_config_steps|].
      split; [apply import_users_steps|]. split; [constructor|done].
    + rewrite (bind_replaced _ _ _ _ _ E2). cbn [outcome_of calls_of].
      exists (calls_of (import_config cli w)), (calls_of (import_users cli w1)), [].
      rewrite app_nil_r. split; [done|]. split; [apply import_config_steps|].
      split; [apply import_users_steps|]. split; [constructor|done].
  - rewrite (bind_raised _ _ _ _ E1). cbn [outcome_of calls_of].
    exists (calls_of (import_config cli w)), [], [].
    rewrite !app_nil_r. split; [done|]. split; [apply import_config_steps|].
    split; [constructor|]. split; [constructor|]. split; [by intros [|]|done].
  - rewrite (bind_replaced _ _ _ _ _ E1). cbn [outcome_of calls_of].
    exists (calls_of (import_config cli w)), [], [].
    rewrite !app_nil_r. split; [done|]. split; [apply import_config_steps|].
    split; [constructor|]. split; [constructor|]. split; [by intros [|]|done].
Qed.
End Returns.


(** ** The identity-store import *)

Lemma elem_of_middle {A} (l t1 t2 : list A) c : l = t1 ++ c :: t2 -> c ∈ l.
Proof. intros ->. apply elem_of_app. right. by left. Qed.

Lemma split_after_prefix {A} (pre rest t1 t2 : list A) c :
  pre ++ rest = t1 ++ c :: t2 -> c ∉ pre -> exists t1', t1 = pre ++ t1'.
Proof.
  revert t1. induction pre as [|x pre IH]; intros t1; simpl; [eauto|].
  intros E Hn. destruct t1 as [|y t1]; simpl in E; injection E as -> E.
  - destruct Hn. by left.
  - destruct (IH t1 E) as [t1' ->]; [|eauto]. intros Hc. apply Hn. by right.
Qed.

(** Refutes that a call occurs in a list of other calls. *)
Ltac absent_call H :=
  apply elem_of_middle in H;
  repeat (apply elem_of_cons in H as [H|H]; [discriminate|]);
  by apply elem_of_nil in H.

Lemma upsert_all_keeps us db (k : string) :
  is_Some (db !! k) -> is_Some (upsert_all us db !! k).
Proof.
  unfold upsert_all. revert db. induction us as [|u us IH]; intros db Hk; simpl; [done|].
  apply IH. destruct (decide (user_name u = k)) as [->|Hne].
  - rewrite lookup_insert_eq. eauto.
  - by rewrite lookup_insert_ne.
Qed.

Lemma upsert_all_elem us db u :
  u ∈ us -> is_Some (upsert_all us db !! user_name u).
Proof.
  revert db. induction us as [|u' us IH]; intros db Hu; [by apply elem_of_nil in Hu|].
  apply elem_of_cons in Hu as [->|Hu].
  - apply (upsert_all_keeps us). rewrite lookup_insert_eq. eauto.
  - apply (IH _ Hu).
Qed.

Section ImportUsers.
Context {builtins : Builtins} {policy : ResolutionPolicy}.

Lemma import_users_ok cli w iconfig pp gp :
  selected_config cli w = Some iconfig ->
  cli !! "etc_passwd_path" = Some (PStr pp) ->
  cli !! "etc_group_path" = Some (PStr gp) ->
  is_Some (w_passwd w !! pp) -> is_Some (w_group w !! gp) ->
  (forall c, w_faults w c = false) ->
  outcome_of (import_users cli w) = Done tt.
Proof.
  unfold selected_config. intros Hsel Hpp Hgp [pw Hpw] [gr Hgr] Hnf.
  destruct (cli !! "config") as [config|] eqn:Ec; [|done].
  destruct (cli !! "identity") as [identity|] eqn:Ei; [|done].
  destruct (py_or config (PList [])) as [| | | |cfgs|] eqn:Ecfgs; try done.
  destruct (load_sources (w_sources w) cfgs) as [docs|] eqn:El; [|done].
  destruct (config_get (merge_sources docs) identity) as [ic|] eqn:Eg; [|done].
  injection Hsel as ->.
  unfold import_users, read_config_files, passwd_read, group_read,
    passwd_write, group_write.
  exec. rewrite Ecfgs. exec.
  apply for_each_passdb_ok. intros u. apply Hnf.
Qed.

Lemma import_users_writes_first cli w t1 u t2 :
  calls_of (import_users cli w) = t1 ++ c_passdb_add_user u :: t2 ->
  exists pp gp,
    cli !! "etc_passwd_path" = Some (PStr pp)
    /\ cli !! "etc_group_path" = Some (PStr gp)
    /\ c_passwd_write pp ∈ t1 /\ c_group_write gp ∈ t1
    /\ w_faults w (c_passwd_write pp) = false
    /\ w_faults w (c_group_write gp) = false.
Proof.
  unfold import_users, read_config_files, passwd_read, group_read,
    passwd_write, group_write.
  exec; try (intros Hc; absent_call Hc).
  destruct (py_or v (PList [])) eqn:Ecfg; exec; try (intros Hc; absent_call Hc).
  intros Hc.
  repeat match goal with
         | H : as_path _ = Ok _ |- _ => apply as_path_ok in H as ->
         end.
  match type of Hc with
  | ?a :: ?b :: ?c :: ?d :: ?e :: ?rest = _ =>
      destruct (split_after_prefix [a; b; c; d; e] rest t1 t2 _ Hc) as [t1' ->]
  end.
  { intros Hin. repeat (apply elem_of_cons in Hin as [Hin|Hin]; [discriminate|]).
    by apply elem_of_nil in Hin. }
  eexists _, _. split; [done|]. split; [done|].
  split; [|split; [|done]].
  - apply elem_of_app. left. do 3 right. by left.
  - apply elem_of_app. left. do 4 right. by left.
Qed.
End ImportUsers.

(** ** The run operation *)

Lemma bind_ext {A B} (m : M A) (f g : A -> M B) w :
  (forall a w', f a w' = g a w') -> (m ≫= f) w = (m ≫= g) w.
Proof. intros E. unfold mbind, M_bind. destruct (outcome_of (m w)); by rewrite ?E. Qed.

(** A bind whose first part did not return is that first part. *)
Lemma bind_stopped (m : M unit) (f : unit -> M unit) w :
  (forall a, outcome_of (m w) <> Done a) -> (m ≫= f) w = m w.
Proof.
  intros Hn. unfold mbind, M_bind.
  destruct (outcome_of (m w)) as [a|e|file argv] eqn:E; [by destruct (Hn a)|..];
    by rewrite <- E.
Qed.

Lemma py_eq_str_true v lit : py_eq_str v lit = true -> v = PStr lit.
Proof.
  destruct v; simpl; try done. by intros ->%String.eqb_eq.
Qed.

Lemma attr_setattr_ne (cli : Namespace) k k' v :
  k <> k' -> attr (setattr cli k v) k' = attr cli k'.
Proof. intros Hk. unfold attr, setattr. by rewrite lookup_insert_ne. Qed.

Lemma getattr_setattr_ne (cli : Namespace) k k' v d :
  k <> k' -> getattr (setattr cli k v) k' d = getattr cli k' d.
Proof. intros Hk. unfold getattr, setattr. by rewrite lookup_insert_ne. Qed.

Section Run.
Context {builtins : Builtins} {policy : ResolutionPolicy}.

Lemma traced_init_container (P : call -> Prop) cli :
  P c_ensure_samba_dirs ->
  (forall l, P (c_read_config_files l)) ->
  (forall i, P (c_net_import_config i)) ->
  (forall p, P (c_passwd_read p)) -> (forall p, P (c_group_read p)) ->
  (forall p, P (c_passwd_write p)) -> (forall p, P (c_group_write p)) ->
  (forall u, P (c_passdb_add_user u)) ->
  (forall p, P (c_nss_read p)) -> (forall p, P (c_nss_write p)) ->
  traced P (init_container cli).
Proof.
  intros. unfold init_container.
  apply traced_bind; [by apply traced_import_config|]. intros _.
  apply traced_bind; [by apply traced_import_users|]. intros _.
  by apply traced_init_nsswitch.
Qed.

Lemma traced_run_init cli : traced init_call (run_init cli).
Proof.
  unfold run_init. apply traced_if.
  - by apply traced_init_container.
  - by apply traced_invoke.
Qed.

Lemma run_init_not_replaced cli w file argv :
  outcome_of (run_init cli w) <> Replaced file argv.
Proof.
  apply (traced_not_replaced init_call); [apply traced_run_init|]. by intros [].
Qed.

Lemma run_container_smbd cli w :
  cli !! "target" = Some (PStr "smbd") ->
  run_container cli w = (run_init cli ;; execvp "/usr/sbin/smbd" smbd_cmd) w.
Proof.
  intros Ht. unfold run_container, run_init. apply bind_ext. intros _ w'.
  by rewrite (attr_some _ _ _ Ht), bind_lift_ok.
Qed.

Lemma run_container_winbindd cli w :
  cli !! "target" = Some (PStr "winbindd") ->
  run_container cli w =
  (run_init cli ;;
   (if truthy (getattr cli "insecure_auto_join" (PBool false))
    then join cli else mret tt) ;;
   execvp "/usr/sbin/winbindd" winbindd_cmd) w.
Proof.
  intros Ht. unfold run_container, run_init. apply bind_ext. intros _ w'.
  by rewrite (attr_some _ _ _ Ht), !bind_lift_ok.
Qed.

Lemma run_container_other cli w target :
  cli !! "target" = Some target ->
  py_eq_str target "smbd" = false -> py_eq_str target "winbindd" = false ->
  run_container cli w =
  (run_init cli ;; raise (Fail (invalid_target_process target))) w.
Proof.
  intros Ht Hs Hw. unfold run_container, run_init. apply bind_ext. intros _ w'.
  by rewrite (attr_some _ _ _ Ht), !bind_lift_ok, Hs, bind_lift_ok, Hw, bind_lift_ok.
Qed.

Lemma run_container_no_target cli w :
  cli !! "target" = None ->
  run_container cli w = (run_init cli ;; raise (AttributeError "target")) w.
Proof.
  intros Ht. unfold run_container, run_init. apply bind_ext. intros _ w'.
  by rewrite (attr_none _ _ Ht), bind_lift_err.
Qed.

(** The shape of [run_container], by target. *)
Lemma run_container_cases cli w :
  (cli !! "target" = Some (PStr "smbd")
   /\ run_container cli w = (run_init cli ;; execvp "/usr/sbin/smbd" smbd_cmd) w)
  \/ (cli !! "target" = Some (PStr "winbindd")
      /\ run_container cli w =
         (run_init cli ;;
          (if truthy (getattr cli "insecure_auto_join" (PBool false))
           then join cli else mret tt) ;;
          execvp "/usr/sbin/winbindd" winbindd_cmd) w)
  \/ (exists e, run_container cli w = (run_init cli ;; raise e) w).
Proof.
  destruct (cli !! "target") as [target|] eqn:Ht.
  - destruct (py_eq_str target "smbd") eqn:Hs.
    { apply py_eq_str_true in Hs as ->. left. split; [done|].
      by apply run_container_smbd. }
    destruct (py_eq_str target "winbindd") eqn:Hw.
    { apply py_eq_str_true in Hw as ->. right. left. split; [done|].
      by apply run_container_winbindd. }
    right. right. eexists. by apply run_container_other.
  - right. right. eexists. by apply run_container_no_target.
Qed.

Lemma traced_run_container (P : call -> Prop) cli :
  (forall c, P c) -> traced P (run_container cli).
Proof.
  intros HP. unfold run_container.
  apply traced_bind.
  { apply traced_if; [by apply traced_init_container|by apply traced_invoke]. }
  intros _. apply traced_bind; [apply traced_lift|]. intros target.
  apply traced_if; [by apply traced_execvp|].
  apply traced_bind; [apply traced_lift|]. intros target'.
  apply traced_if.
  - apply traced_bind; [|intros _; by apply traced_execvp].
    apply traced_if; [by apply traced_join|apply traced_ret].
  - apply traced_bind; [apply traced_lift|]. intros ?. apply traced_raise.
Qed.

Lemma join_not_replaced cli w file argv :
  outcome_of ((if truthy (getattr cli "insecure_auto_join" (PBool false))
               then join cli else mret tt) w) <> Replaced file argv.
Proof.
  apply (traced_not_replaced (fun c => forall f a, c <> c_execvp f a)).
  - apply traced_if; [by apply traced_join|apply traced_ret].
  - intros Hc. by apply (Hc file argv).
Qed.

Lemma run_container_not_done cli w a :
  outcome_of (run_container cli w) <> Done a.
Proof.
  intros E.
  destruct (run_container_cases cli w) as [[_ Hr]|[[_ Hr]|[e Hr]]];
    rewrite Hr in E; apply bind_done_inv in E as (? & _ & E).
  - by apply execvp_not_done in E.
  - apply bind_done_inv in E as (? & _ & E). by apply execvp_not_done in E.
  - done.
Qed.

Lemma run_container_replaced cli w file argv :
  outcome_of (run_container cli w) = Replaced file argv ->
  (cli !! "target" = Some (PStr "smbd")
   /\ file = "/usr/sbin/smbd" /\ argv = smbd_cmd)
  \/ (cli !! "target" = Some (PStr "winbindd")
      /\ file = "/usr/sbin/winbindd" /\ argv = winbindd_cmd).
Proof.
  intros E.
  destruct (run_container_cases cli w) as [[Ht Hr]|[[Ht Hr]|[e Hr]]];
    rewrite Hr in E;
    (apply bind_replaced_inv in E as [E|(? & _ & E)];
     [by apply run_init_not_replaced in E|]).
  - left. by apply execvp_replaced_inv in E as [-> ->].
  - right. apply bind_replaced_inv in E as [E|(? & _ & E)];
      [by apply join_not_replaced in E|].
    by apply execvp_replaced_inv in E as [-> ->].
  - done.
Qed.

(** The initialisation does not depend on the auto-join flag. *)
Lemma run_init_flag cli flag w :
  run_init (setattr cli "insecure_auto_join" flag) w = run_init cli w.
Proof.
  unfold run_init, init_container, import_config, import_users.
  rewrite !getattr_setattr_ne by done. by rewrite !attr_setattr_ne by done.
Qed.
End Run.

(** * The claims *)

Section Claims.
Context {builtins : Builtins} {policy : ResolutionPolicy}.

(** C1 (amended).  An invocation for which neither the command line nor
    the environment supplies an identity fails with [Fail] before any call
    is made.  An invocation whose identity key is in none of the sources
    fails, with no store written and the world unchanged, whenever its
    command looks the identity up: print-config, import, import-users,
    init, and run without [--no-init]. *)
Theorem missing_identity_fails_before_write args environ w :
  (no_identity_supplied args environ ->
   failed_before_write (main args environ w) w
   /\ calls_of (main args environ w) = [])
  /\ (forall cli,
        main_cli args environ = Ok cli ->
        absent_from_sources cli w ->
        reads_config (opt_command args) = true ->
        failed_before_write (main args environ w) w).
Proof.
  split.
  - apply main_no_identity.
  - intros cli. apply main_absent.
Qed.

(** C2 (amended).  A target outside the parser's choices is rejected by
    [parse_args] with exit status 2 before any call is made.
    [run_container] itself looks at the target only after its
    initialisation: handed any other target, it raises the invalid-target
    [Fail] once the initialisation has completed (with the world and the
    calls the initialisation left), is the initialisation alone when that
    did not complete, and never joins or hands off. *)
Theorem invalid_target_rejected w :
  (forall args environ no_init auto_join target,
     opt_command args = Some (cmd_run no_init auto_join target) ->
     target ∉ target_choices ->
     main args environ w = Run (Raised (SystemExit 2)) w [])
  /\ (forall cli target,
        cli !! "target" = Some target ->
        py_eq_str target "smbd" = false ->
        py_eq_str target "winbindd" = false ->
        (outcome_of (run_init cli w) = Done tt ->
         run_container cli w =
         Run (Raised (Fail (invalid_target_process target)))
             (world_of (run_init cli w)) (calls_of (run_init cli w)))
        /\ ((forall a, outcome_of (run_init cli w) <> Done a) ->
            run_container cli w = run_init cli w)
        /\ Forall init_call (calls_of (run_container cli w))).
Proof.
  split.
  - intros args environ no_init auto_join target Hc Ht.
    unfold main, main_cli, parse_args. rewrite Hc.
    by rewrite bool_decide_eq_false_2.
  - intros cli target Ht Hs Hw.
    rewrite (run_container_other _ _ _ Ht Hs Hw). split; [|split].
    + intros E. rewrite (bind_done _ _ _ _ E). simpl. by rewrite app_nil_r.
    + apply bind_stopped.
    + apply bind_calls_Forall; [apply traced_run_init|]. intros _. constructor.
Qed.

(** C3.  [init_container] is the registry import, then the identity
    import, then the name-resolution ensure.  In every execution the
    store calls come step by step, with none of an earlier step after one
    of a later, and a step has a call only when the step before it
    returned.  An execution that returns performed exactly the three
    steps, each once and on the world the previous one left: its calls
    are those of [import_config] (one registry import), then those of
    [import_users] (the two reads and the two writes of the identity
    files and one upsert per declared user), then the read of the
    resolution file and, only when the required module was absent, its
    write; and the world it leaves is the one these three produce. *)
Theorem init_container_order cli w :
  exists n1 n2 n3 : nat,
    omap step_of (calls_of (init_container cli w))
    = replicate n1 registry_step ++ replicate n2 identity_step
      ++ replicate n3 resolution_step
    /\ ((0 < n2 + n3)%nat -> outcome_of (import_config cli w) = Done tt)
    /\ ((0 < n3)%nat ->
        outcome_of (import_users cli (world_of (import_config cli w))) = Done tt)
    /\ (outcome_of (init_container cli w) = Done tt ->
        exists cfgs pp gp iconfig passwd_lines group_lines lines,
          config_sources cli = PList cfgs
          /\ selected_config cli w = Some iconfig
          /\ cli !! "etc_passwd_path" = Some (PStr pp)
          /\ cli !! "etc_group_path" = Some (PStr gp)
          /\ w_passwd w !! pp = Some passwd_lines
          /\ w_group w !! gp = Some group_lines
          /\ w_nsswitch w !! nsswitch_conf = Some lines
          /\ n1 = 1%nat
          /\ n2 = (4 + List.length (ic_users iconfig))%nat
          /\ n3 = (if winbind_enabled lines then 1 else 2)%nat
          /\ calls_of (init_container cli w)
             = [c_ensure_samba_dirs; c_read_config_files cfgs;
                c_net_import_config (ic_identity iconfig)]
               ++ ([c_read_config_files cfgs; c_passwd_read pp; c_group_read gp;
                    c_passwd_write pp; c_group_write gp]
                   ++ map (fun u => c_passdb_add_user (user_name u))
                        (ic_users iconfig))
               ++ c_nss_read nsswitch_conf
                  :: (if winbind_enabled lines then []
                      else [c_nss_write nsswitch_conf])
          /\ world_of (init_container cli w)
             = initialised iconfig pp gp passwd_lines group_lines lines w).
Proof.
  destruct (outcome_of (init_container cli w)) as [[]|e|file argv] eqn:E.
  - destruct (init_container_returns _ _ E)
      as (cfgs & pp & gp & iconfig & pw & gr & lines
          & Hcfgs & Hsel & Hpp & Hgp & Hpw & Hgr & Hl & R).
    exists 1%nat, (4 + List.length (ic_users iconfig))%nat,
      (if winbind_enabled lines then 1 else 2)%nat.
    unfold init_container in E.
    apply bind_done_inv in E as ([] & E1 & E).
    apply bind_done_inv in E as ([] & E2 & _).
    split; [|split; [done|split; [done|]]].
    + rewrite R. cbn [calls_of]. rewrite !omap_app, steps_passdb.
      by destruct (winbind_enabled lines).
    + intros _. exists cfgs, pp, gp, iconfig, pw, gr, lines.
      do 10 (split; [done|]). by rewrite R.
  - destruct (init_container_phases cli w)
      as (c1 & c2 & c3 & -> & H1 & H2 & H3 & Hc1 & Hc2).
    exists (List.length (omap step_of c1)), (List.length (omap step_of c2)),
      (List.length (omap step_of c3)).
    split; [|split; [|split; [|done]]].
    + rewrite !omap_app.
      by rewrite <- (steps_replicate _ _ H1), <- (steps_replicate _ _ H2),
        <- (steps_replicate _ _ H3).
    + intros Hn. apply Hc1. destruct c2; [|by left]. destruct c3; [|by right].
      simpl in Hn. lia.
    + intros Hn. apply Hc2. destruct c3; [|done]. simpl in Hn. lia.
  - destruct (init_container_phases cli w)
      as (c1 & c2 & c3 & -> & H1 & H2 & H3 & Hc1 & Hc2).
    exists (List.length (omap step_of c1)), (List.length (omap step_of c2)),
      (List.length (omap step_of c3)).
    split; [|split; [|split; [|done]]].
    + rewrite !omap_app.
      by rewrite <- (steps_replicate _ _ H1), <- (steps_replicate _ _ H2),
        <- (steps_replicate _ _ H3).
    + intros Hn. apply Hc1. destruct c2; [|by left]. destruct c3; [|by right].
      simpl in Hn. lia.
    + intros Hn. apply Hc2. destruct c3; [|done]. simpl in Hn. lia.
Qed.

(** C4.  Whenever [import_users] makes a credential-database upsert, the
    writes of the passwd file and of the group file (at the paths of the
    namespace) were made before it, and both succeeded. *)
Theorem passwd_and_group_written_before_passdb cli w t1 u t2 :
  calls_of (import_users cli w) = t1 ++ c_passdb_add_user u :: t2 ->
  exists pp gp,
    cli !! "etc_passwd_path" = Some (PStr pp)
    /\ cli !! "etc_group_path" = Some (PStr gp)
    /\ c_passwd_write pp ∈ t1 /\ c_group_write gp ∈ t1
    /\ w_faults w (c_passwd_write pp) = false
    /\ w_faults w (c_group_write gp) = false.
Proof. apply import_users_writes_first. Qed.

(** C5.  When [import_users] returns, its calls end with one upsert per
    user of the selected identity configuration, in declaration order, and
    every such user has an entry in the credential database, whatever the
    passwd file held.  It does return when the identity files exist and no
    outside call fails. *)
Theorem every_declared_user_upserted cli w iconfig :
  selected_config cli w = Some iconfig ->
  (outcome_of (import_users cli w) = Done tt ->
   (exists pre,
      calls_of (import_users cli w)
      = pre ++ map (fun u => c_passdb_add_user (user_name u)) (ic_users iconfig)
      /\ Forall (fun c => forall u, c <> c_passdb_add_user u) pre)
   /\ forall u, u ∈ ic_users iconfig ->
        c_passdb_add_user (user_name u) ∈ calls_of (import_users cli w)
        /\ is_Some (w_passdb (world_of (import_users cli w)) !! user_name u))
  /\ (forall pp gp,
        cli !! "etc_passwd_path" = Some (PStr pp) ->
        cli !! "etc_group_path" = Some (PStr gp) ->
        is_Some (w_passwd w !! pp) -> is_Some (w_group w !! gp) ->
        (forall c, w_faults w c = false) ->
        outcome_of (import_users cli w) = Done tt).
Proof.
  intros Hsel. split.
  - intros Hd.
    destruct (import_users_done _ _ Hd)
      as (cfgs & pp & gp & ic & Hsel' & _ & _ & Hc & Hw).
    rewrite Hsel in Hsel'. injection Hsel' as <-. split.
    + eexists. split; [exact Hc|]. by repeat constructor.
    + intros u Hu. split.
      * rewrite Hc. apply elem_of_app. right.
        apply (list_elem_of_fmap_2 (fun u => c_passdb_add_user (user_name u))) in Hu.
        exact Hu.
      * rewrite Hw. by apply upsert_all_elem.
  - intros pp gp. by apply (import_users_ok cli w iconfig).
Qed.

(** C6.  With the resolution file readable and writable, the last block
    of [init_container] returns, and it writes the file exactly when the
    required module is absent from a passwd or group line.  When the
    module is present nothing changes.  When it is absent, each line that
    lacked it gets it once, the other entries and lines stay as they were,
    and the file is written back.  Running the block again right after
    reads the file and changes nothing. *)
Theorem nsswitch_written_iff_module_absent w lines :
  w_nsswitch w !! nsswitch_conf = Some lines ->
  w_faults w (c_nss_read nsswitch_conf) = false ->
  w_faults w (c_nss_write nsswitch_conf) = false ->
  outcome_of (init_nsswitch w) = Done tt
  /\ (c_nss_write nsswitch_conf ∈ calls_of (init_nsswitch w)
      <-> winbind_enabled lines = false)
  /\ (winbind_enabled lines = true -> world_of (init_nsswitch w) = w)
  /\ (winbind_enabled lines = false ->
      exists lines',
        w_nsswitch (world_of (init_nsswitch w)) !! nsswitch_conf = Some lines'
        /\ Forall2 ensured lines lines'
        /\ winbind_enabled lines' = true)
  /\ init_nsswitch (world_of (init_nsswitch w))
     = Run (Done tt) (world_of (init_nsswitch w)) [c_nss_read nsswitch_conf].
Proof.
  intros Hl Hr Hw. rewrite (init_nsswitch_run w lines Hl Hr Hw).
  destruct (winbind_enabled lines) eqn:Ee; cbn [outcome_of world_of calls_of].
  - split; [done|]. split.
    { split; [|done]. intros Hin.
      apply elem_of_cons in Hin as [Hin|Hin]; [done|]. by apply elem_of_nil in Hin. }
    split; [done|]. split; [done|].
    by rewrite (init_nsswitch_run w lines Hl Hr Hw), Ee.
  - split; [done|]. split.
    { split; [done|]. intros _. right. by left. }
    split; [done|]. split.
    + intros _. exists (ensure_winbind_enabled lines). simpl.
      rewrite lookup_insert_eq. split; [done|].
      split; [apply ensure_winbind_enabled_ensured|apply ensure_winbind_enabled_enabled].
    + rewrite (init_nsswitch_run _ (ensure_winbind_enabled lines)); simpl.
      * by rewrite ensure_winbind_enabled_enabled.
      * by rewrite lookup_insert_eq.
      * done.
      * done.
Qed.

(** C7.  Whatever the environment holds, an option given a non-empty
    value on the command line keeps it: the config sources are the
    command line's, split at colons, and identity, username and password
    are the command line's strings. *)
Theorem command_line_overrides_environment args environ cli :
  main_cli args environ = Ok cli ->
  (opt_config args <> [] ->
   cli !! "config" = Some (PList (flat_map split_colon (opt_config args))))
  /\ (forall s, opt_identity args = Some s -> s <> "" ->
                cli !! "identity" = Some (PStr s))
  /\ (forall s, opt_username args = Some s -> s <> "" ->
                cli !! "username" = Some (PStr s))
  /\ (forall s, opt_password args = Some s -> s <> "" ->
                cli !! "password" = Some (PStr s)).
Proof.
  intros Ecli. destruct (main_cli_parse _ _ _ Ecli) as [ns Ep].
  destruct (main_cli_spec args environ ns Ep) as (cli' & Ecli' & _ & Hc & Hi & Hu & Hp).
  rewrite Ecli in Ecli'. injection Ecli' as <-.
  split; [done|].
  assert (forall s, s <> "" -> forall e, env_fallback environ e s = s) as Hfb.
  { intros s Hs e. unfold env_fallback. by destruct (String.eqb_spec s ""). }
  split; [|split]; intros s Hs Hne.
  - rewrite Hi, Hs. by rewrite Hfb.
  - rewrite Hu, Hs. simpl. by rewrite Hfb.
  - rewrite Hp, Hs. simpl. by rewrite Hfb.
Qed.

(** C8.  [run_container] never returns.  When it ends with the process
    image replaced, the executable and its argument vector are those of
    the target and of nothing else: [/usr/sbin/smbd] or
    [/usr/sbin/winbindd], each with its three fixed flags, and that
    [os.execvp] is the last call made. *)
Theorem handoff_is_fixed_by_target cli w :
  (forall a, outcome_of (run_container cli w) <> Done a)
  /\ forall file argv,
       outcome_of (run_container cli w) = Replaced file argv ->
       ((cli !! "target" = Some (PStr "smbd")
         /\ file = "/usr/sbin/smbd"
         /\ argv = ["/usr/sbin/smbd"; "--foreground"; "--log-stdout";
                    "--no-process-group"])
        \/ (cli !! "target" = Some (PStr "winbindd")
            /\ file = "/usr/sbin/winbindd"
            /\ argv = ["/usr/sbin/winbindd"; "--foreground"; "--stdout";
                       "--no-process-group"]))
       /\ exists t, calls_of (run_container cli w) = t ++ [c_execvp file argv].
Proof.
  split; [intros a; apply run_container_not_done|].
  intros file argv E. split.
  - by apply (run_container_replaced cli w).
  - destruct (traced_run_container (fun _ => True) cli (fun _ => I) w) as [_ Hr].
    by apply Hr.
Qed.

(** C9.  With target smbd no join is ever attempted and the auto-join
    flag changes nothing.  With target winbindd and the flag set, the join
    is called with the namespace's username and password as soon as the
    initialisation has completed, the handoff follows only if the join
    succeeded, and any handoff is immediately preceded by the join.  With
    target winbindd and the flag not set there is no join. *)
Theorem auto_join_only_for_winbindd cli w :
  (cli !! "target" = Some (PStr "smbd") ->
   (forall u p, c_join u p ∉ calls_of (run_container cli w))
   /\ forall flag,
        run_container (setattr cli "insecure_auto_join" flag) w
        = run_container cli w)
  /\ (cli !! "target" = Some (PStr "winbindd") ->
      truthy (getattr cli "insecure_auto_join" (PBool false)) = true ->
      forall u p,
        cli !! "username" = Some u -> cli !! "password" = Some p ->
        (outcome_of (run_init cli w) = Done tt ->
         calls_of (run_container cli w)
         = calls_of (run_init cli w)
           ++ c_join u p
              :: (if w_faults (world_of (run_init cli w)) (c_join u p) then []
                  else [c_execvp "/usr/sbin/winbindd" winbindd_cmd]))
        /\ forall file argv,
             c_execvp file argv ∈ calls_of (run_container cli w) ->
             exists t,
               calls_of (run_container cli w) = t ++ [c_join u p; c_execvp file argv])
  /\ (cli !! "target" = Some (PStr "winbindd") ->
      truthy (getattr cli "insecure_auto_join" (PBool false)) = false ->
      forall u p, c_join u p ∉ calls_of (run_container cli w)).
Proof.
  split; [|split].
  - intros Ht. split.
    + intros u p Hin. rewrite (run_container_smbd _ _ Ht) in Hin.
      assert (Forall (fun c => forall u p, c <> c_join u p)
                (calls_of ((run_init cli ;; execvp "/usr/sbin/smbd" smbd_cmd) w)))
        as Hall.
      { apply bind_calls_Forall.
        - eapply Forall_impl; [apply traced_run_init|]. by intros [].
        - intros _. rewrite calls_of_execvp. by repeat constructor. }
      rewrite Forall_forall in Hall. by apply (Hall _ Hin u p).
    + intros flag. rewrite (run_container_smbd cli w Ht).
      rewrite run_container_smbd by (unfold setattr; by rewrite lookup_insert_ne).
      unfold mbind, M_bind. by rewrite run_init_flag.
  - intros Ht Hflag u p Hu Hp.
    assert (forall w1,
      ((if truthy (getattr cli "insecure_auto_join" (PBool false))
        then join cli else mret tt) ;;
       execvp "/usr/sbin/winbindd" winbindd_cmd) w1
      = if w_faults w1 (c_join u p)
        then Run (Raised (ExternalFailure (c_join u p))) w1 [c_join u p]
        else if w_faults w1 (c_execvp "/usr/sbin/winbindd" winbindd_cmd)
             then Run (Raised (ExternalFailure
                                 (c_execvp "/usr/sbin/winbindd" winbindd_cmd)))
                      w1 [c_join u p; c_execvp "/usr/sbin/winbindd" winbindd_cmd]
             else Run (Replaced "/usr/sbin/winbindd" winbindd_cmd) w1
                      [c_join u p; c_execvp "/usr/sbin/winbindd" winbindd_cmd])
      as Htail.
    { intros w1. rewrite Hflag. unfold join, joiner_join.
      rewrite bind_assoc, (attr_some _ _ _ Hu), bind_lift_ok.
      rewrite bind_assoc, (attr_some _ _ _ Hp), bind_lift_ok.
      rewrite bind_invoke. destruct (w_faults w1 (c_join u p)); [done|].
      cbv beta iota. unfold execvp.
      by destruct (w_faults w1 (c_execvp "/usr/sbin/winbindd" winbindd_cmd)). }
    rewrite (run_container_winbindd _ _ Ht).
    destruct (outcome_of (run_init cli w)) as [[]|e|file' argv'] eqn:E.
    + rewrite (bind_done _ _ _ _ E), Htail. cbn [calls_of].
      set (w1 := world_of (run_init cli w)).
      split.
      * intros _. destruct (w_faults w1 (c_join u p)); [done|].
        by destruct (w_faults w1 (c_execvp "/usr/sbin/winbindd" winbindd_cmd)).
      * intros file argv Hin.
        apply elem_of_app in Hin as [Hin|Hin].
        { destruct (traced_run_init cli w) as [Hall _].
          rewrite Forall_forall in Hall. by destruct (Hall _ Hin). }
        destruct (w_faults w1 (c_join u p)); cbn [calls_of] in *.
        { apply elem_of_cons in Hin as [Hin|Hin]; [done|]. by apply elem_of_nil in Hin. }
        assert (c_execvp file argv = c_execvp "/usr/sbin/winbindd" winbindd_cmd)
          as ->.
        { destruct (w_faults w1 (c_execvp "/usr/sbin/winbindd" winbindd_cmd));
            cbn [calls_of] in Hin;
            (apply elem_of_cons in Hin as [Hin|Hin]; [done|]);
            (apply elem_of_cons in Hin as [Hin|Hin]; [done|]);
            by apply elem_of_nil in Hin. }
        exists (calls_of (run_init cli w)).
        by destruct (w_faults w1 (c_execvp "/usr/sbin/winbindd" winbindd_cmd)).
    + rewrite (bind_raised _ _ _ _ E). cbn [calls_of]. split; [done|].
      intros file argv Hin. destruct (traced_run_init cli w) as [Hall _].
      rewrite Forall_forall in Hall. by destruct (Hall _ Hin).
    + by apply run_init_not_replaced in E.
  - intros Ht Hflag u p Hin. rewrite (run_container_winbindd _ _ Ht), Hflag in Hin.
    assert (Forall (fun c => forall u p, c <> c_join u p)
              (calls_of ((run_init cli ;; mret tt ;;
                          execvp "/usr/sbin/winbindd" winbindd_cmd) w))) as Hall.
    { apply bind_calls_Forall.
      - eapply Forall_impl; [apply traced_run_init|]. by intros [].
      - intros _. rewrite bind_ret, calls_of_execvp. by repeat constructor. }
    rewrite Forall_forall in Hall. by apply (Hall _ Hin u p).
Qed.

(** C10 (amended).  The join username is the command line's value, or
    [Administrator] when the option is not given, and the environment is
    not consulted for it, unless [--username] is given as the empty
    string: only then does JOIN_USERNAME take effect.  The password, whose
    default is empty, is INSECURE_JOIN_PASSWORD whenever the command line
    gives none (or an empty one). *)
Theorem join_username_ignores_environment args environ cli :
  main_cli args environ = Ok cli ->
  (opt_username args <> Some "" ->
   cli !! "username" = Some (PStr (default "Administrator" (opt_username args))))
  /\ (opt_username args = Some "" ->
      cli !! "username" = Some (PStr (default "" (environ !! "JOIN_USERNAME"))))
  /\ (default "" (opt_password args) = "" ->
      cli !! "password"
      = Some (PStr (default "" (environ !! "INSECURE_JOIN_PASSWORD")))).
Proof.
  intros Ecli. destruct (main_cli_parse _ _ _ Ecli) as [ns Ep].
  destruct (main_cli_spec args environ ns Ep) as (cli' & Ecli' & _ & _ & _ & Hu & Hp).
  rewrite Ecli in Ecli'. injection Ecli' as <-.
  split; [|split].
  - intros Hne. rewrite Hu. unfold env_fallback.
    destruct (opt_username args) as [s|]; simpl; [|done].
    destruct (String.eqb_spec s "") as [->|]; [done|done].
  - intros Hs. by rewrite Hu, Hs.
  - intros Hs. by rewrite Hp, Hs.
Qed.
End Claims.

(** * The claims on the sample deployment *)

(** Closes a goal [x ∉ l] on literals. *)
Ltac not_elem :=
  let H := fresh in
  intros H; repeat (apply elem_of_cons in H as [H|H]; [discriminate|]);
  by apply elem_of_nil in H.

Lemma absent_from_sources_intro (cli : Namespace) w cfgs id :
  config_sources cli = PList cfgs ->
  cli !! "identity" = Some (PStr id) ->
  Forall (fun p => match w_sources w !! p with
                   | Some doc => doc !! id = None
                   | None => True
                   end) cfgs ->
  absent_from_sources cli w.
Proof.
  intros Hc Hi Hall cfgs' p doc id' Hc' Hp Hdoc Hi'.
  rewrite Hc in Hc'. injection Hc' as <-. rewrite Hi in Hi'. injection Hi' as <-.
  rewrite Forall_forall in Hall. specialize (Hall p Hp). by rewrite Hdoc in Hall.
Qed.

Lemma sample_cli_ok args environ ns :
  parse_args args = Ok ns ->
  main_cli (builtins:=sample_builtins) args environ = Ok (sample_cli args environ).
Proof.
  intros E.
  destruct (main_cli_spec (builtins:=sample_builtins) args environ ns E)
    as (cli & Ecli & _).
  unfold sample_cli. by rewrite Ecli.
Qed.

Lemma ghost_absent_init :
  absent_from_sources (sample_cli (sample_args "ghost" cmd_init) ∅) sample_world.
Proof.
  apply (absent_from_sources_intro _ _ [DEFAULT_CONFIG] "ghost").
  - (vm_compute; reflexivity).
  - (vm_compute; reflexivity).
  - (repeat constructor; vm_compute; reflexivity).
Qed.

Lemma missing_identity_witness :
  failed_before_write
    (main (builtins:=sample_builtins) (policy:=sample_policy)
       (sample_args "ghost" cmd_init) ∅ sample_world)
    sample_world.
Proof.
  apply (proj2 (missing_identity_fails_before_write
                  (builtins:=sample_builtins) (policy:=sample_policy)
                  (sample_args "ghost" cmd_init) ∅ sample_world)
           (sample_cli (sample_args "ghost" cmd_init) ∅)).
  - (eapply sample_cli_ok; reflexivity).
  - apply ghost_absent_init.
  - reflexivity.
Defined.

Lemma ghost_absent_run :
  absent_from_sources
    (sample_cli (sample_args "ghost" (cmd_run true false "smbd")) ∅) sample_world.
Proof.
  apply (absent_from_sources_intro _ _ [DEFAULT_CONFIG] "ghost").
  - vm_compute; reflexivity.
  - vm_compute; reflexivity.
  - repeat constructor; vm_compute; reflexivity.
Qed.

Lemma missing_identity_run_no_init_counterexample :
  (exists cli,
     main_cli (builtins:=sample_builtins)
       (sample_args "ghost" (cmd_run true false "smbd")) ∅ = Ok cli
     /\ absent_from_sources cli sample_world)
  /\ outcome_of
       (main (builtins:=sample_builtins) (policy:=sample_policy)
          (sample_args "ghost" (cmd_run true false "smbd")) ∅ sample_world)
     = Replaced "/usr/sbin/smbd" smbd_cmd
  /\ ~ failed_before_write
         (main (builtins:=sample_builtins) (policy:=sample_policy)
            (sample_args "ghost" (cmd_run true false "smbd")) ∅ sample_world)
         sample_world.
Proof.
  assert (outcome_of
            (main (builtins:=sample_builtins) (policy:=sample_policy)
               (sample_args "ghost" (cmd_run true false "smbd")) ∅ sample_world)
          = Replaced "/usr/sbin/smbd" smbd_cmd) as Hout
    by (vm_compute; reflexivity).
  split; [|split].
  - exists (sample_cli (sample_args "ghost" (cmd_run true false "smbd")) ∅).
    split; [eapply sample_cli_ok; reflexivity|apply ghost_absent_run].
  - exact Hout.
  - intros ([e He] & _). rewrite Hout in He. discriminate He.
Qed.

Lemma invalid_target_witness :
  main (builtins:=sample_builtins) (policy:=sample_policy)
    (sample_args "srv1" (cmd_run false false "nmbd")) ∅ sample_world
  = Run (Raised (SystemExit 2)) sample_world [].
Proof.
  apply (proj1 (invalid_target_rejected (builtins:=sample_builtins)
                  (policy:=sample_policy) sample_world)
           (sample_args "srv1" (cmd_run false false "nmbd")) ∅ false false "nmbd").
  - reflexivity.
  - not_elem.
Defined.

Lemma invalid_target_after_init_counterexample :
  sample_run_cli "nmbd" !! "target" = Some (PStr "nmbd")
  /\ ("nmbd" ∉ target_choices)
  /\ outcome_of (run_container (policy:=sample_policy) (sample_run_cli "nmbd") sample_world)
     = Raised (Fail (invalid_target_process (PStr "nmbd")))
  /\ c_net_import_config "srv1"
     ∈ calls_of (run_container (policy:=sample_policy) (sample_run_cli "nmbd") sample_world)
  /\ w_passdb sample_world !! "bob" = None
  /\ w_passdb (world_of (run_container (policy:=sample_policy)
                           (sample_run_cli "nmbd") sample_world)) !! "bob"
     = Some (Some "secret")
  /\ ~ failed_before_write
         (run_container (policy:=sample_policy) (sample_run_cli "nmbd") sample_world)
         sample_world.
Proof.
  assert (c_net_import_config "srv1"
          ∈ calls_of (run_container (policy:=sample_policy) (sample_run_cli "nmbd")
                        sample_world)) as Hin
    by (vm_compute; do 2 right; by left).
  split; [vm_compute; reflexivity|]. split; [not_elem|].
  split; [vm_compute; reflexivity|]. split; [exact Hin|].
  split; [vm_compute; reflexivity|]. split; [vm_compute; reflexivity|].
  intros (_ & _ & Hw). rewrite Forall_forall in Hw. by specialize (Hw _ Hin).
Qed.

Lemma init_container_order_witness :
  exists n1 n2 n3 : nat,
    omap step_of (calls_of (init_container (policy:=sample_policy)
                              (sample_run_cli "smbd") sample_world))
    = replicate n1 registry_step ++ replicate n2 identity_step
      ++ replicate n3 resolution_step
    /\ outcome_of (import_config (sample_run_cli "smbd") sample_world) = Done tt
    /\ outcome_of (import_users (sample_run_cli "smbd")
                     (world_of (import_config (sample_run_cli "smbd") sample_world)))
       = Done tt
    /\ n1 = 1%nat /\ n2 = 5%nat /\ n3 = 2%nat
    /\ calls_of (init_container (policy:=sample_policy)
                   (sample_run_cli "smbd") sample_world)
       = [c_ensure_samba_dirs; c_read_config_files [DEFAULT_CONFIG];
          c_net_import_config "srv1";
          c_read_config_files [DEFAULT_CONFIG]; c_passwd_read "/etc/passwd";
          c_group_read "/etc/group"; c_passwd_write "/etc/passwd";
          c_group_write "/etc/group"; c_passdb_add_user "bob";
          c_nss_read "/etc/nsswitch.conf"; c_nss_write "/etc/nsswitch.conf"]
    /\ world_of (init_container (policy:=sample_policy)
                   (sample_run_cli "smbd") sample_world)
       = initialised (policy:=sample_policy) srv1 "/etc/passwd" "/etc/group" [] []
           [ {| nss_db := "passwd"; nss_modules := ["files"] |} ] sample_world.
Proof.
  destruct (init_container_order (policy:=sample_policy)
              (sample_run_cli "smbd") sample_world)
    as (n1 & n2 & n3 & Heq & H2 & H3 & Hd).
  destruct Hd as (cfgs & pp & gp & iconfig & pw & gr & lines
                  & Hcfgs & Hsel & Hpp & Hgp & Hpw & Hgr & Hl
                  & Hn1 & Hn2 & Hn3 & Hcalls & Hworld);
    [vm_compute; reflexivity|].
  assert (config_sources (sample_run_cli "smbd") = PList [DEFAULT_CONFIG]) as Hcfgs'
    by (vm_compute; reflexivity).
  assert (selected_config (sample_run_cli "smbd") sample_world = Some srv1) as Hsel'
    by (vm_compute; reflexivity).
  assert (sample_run_cli "smbd" !! "etc_passwd_path" = Some (PStr "/etc/passwd")) as Hpp'
    by (vm_compute; reflexivity).
  assert (sample_run_cli "smbd" !! "etc_group_path" = Some (PStr "/etc/group")) as Hgp'
    by (vm_compute; reflexivity).
  rewrite Hcfgs' in Hcfgs. injection Hcfgs as <-.
  rewrite Hsel' in Hsel. injection Hsel as <-.
  rewrite Hpp' in Hpp. injection Hpp as <-.
  rewrite Hgp' in Hgp. injection Hgp as <-.
  assert (w_passwd sample_world !! "/etc/passwd" = Some []) as Hpw'
    by (vm_compute; reflexivity).
  assert (w_group sample_world !! "/etc/group" = Some []) as Hgr'
    by (vm_compute; reflexivity).
  assert (w_nsswitch sample_world !! nsswitch_conf
          = Some [ {| nss_db := "passwd"; nss_modules := ["files"] |} ]) as Hl'
    by (vm_compute; reflexivity).
  rewrite Hpw' in Hpw. injection Hpw as <-.
  rewrite Hgr' in Hgr. injection Hgr as <-.
  rewrite Hl' in Hl. injection Hl as <-.
  exists n1, n2, n3. split; [exact Heq|].
  split; [apply H2; rewrite Hn2; simpl; lia|].
  split; [apply H3; rewrite Hn3; vm_compute; lia|].
  split; [exact Hn1|]. split; [exact Hn2|]. split; [exact Hn3|].
  split; [exact Hcalls|exact Hworld].
Defined.

Lemma passwd_and_group_written_before_passdb_witness :
  exists pp gp,
    sample_run_cli "smbd" !! "etc_passwd_path" = Some (PStr pp)
    /\ sample_run_cli "smbd" !! "etc_group_path" = Some (PStr gp)
    /\ c_passwd_write pp
       ∈ [c_read_config_files [DEFAULT_CONFIG]; c_passwd_read "/etc/passwd";
          c_group_read "/etc/group"; c_passwd_write "/etc/passwd";
          c_group_write "/etc/group"]
    /\ c_group_write gp
       ∈ [c_read_config_files [DEFAULT_CONFIG]; c_passwd_read "/etc/passwd";
          c_group_read "/etc/group"; c_passwd_write "/etc/passwd";
          c_group_write "/etc/group"]
    /\ w_faults sample_world (c_passwd_write pp) = false
    /\ w_faults sample_world (c_group_write gp) = false.
Proof.
  apply (passwd_and_group_written_before_passdb
           (sample_run_cli "smbd") sample_world _ "bob" []).
  vm_compute. reflexivity.
Defined.

Lemma every_declared_user_upserted_witness :
  c_passdb_add_user "bob"
  ∈ calls_of (import_users (sample_run_cli "smbd") sample_world_with_bob)
  /\ is_Some (w_passdb (world_of (import_users (sample_run_cli "smbd")
                                    sample_world_with_bob)) !! "bob").
Proof.
  apply (proj2 (proj1 (every_declared_user_upserted
                         (sample_run_cli "smbd") sample_world_with_bob srv1
                         ltac:(vm_compute; reflexivity))
                  ltac:(vm_compute; reflexivity)) bob).
  by left.
Defined.

Lemma nsswitch_written_iff_module_absent_witness :
  c_nss_write nsswitch_conf
  ∈ calls_of (init_nsswitch (policy:=sample_policy) sample_world).
Proof.
  apply (proj2 (proj1 (proj2 (nsswitch_written_iff_module_absent
                                (policy:=sample_policy) sample_world
                                [ {| nss_db := "passwd"; nss_modules := ["files"] |} ]
                                ltac:(vm_compute; reflexivity) eq_refl eq_refl)))).
  vm_compute. reflexivity.
Defined.

Lemma command_line_overrides_environment_witness :
  (["/a.json:/b.json"] <> [] ->
   sample_cli (sample_join_args (Some "alice") (Some "pw")) sample_environ !! "config"
   = Some (PList (flat_map split_colon ["/a.json:/b.json"])))
  /\ (forall s, Some "srv1" = Some s -> s <> "" ->
       sample_cli (sample_join_args (Some "alice") (Some "pw")) sample_environ
         !! "identity" = Some (PStr s))
  /\ (forall s, Some "alice" = Some s -> s <> "" ->
       sample_cli (sample_join_args (Some "alice") (Some "pw")) sample_environ
         !! "username" = Some (PStr s))
  /\ (forall s, Some "pw" = Some s -> s <> "" ->
       sample_cli (sample_join_args (Some "alice") (Some "pw")) sample_environ
         !! "password" = Some (PStr s)).
Proof.
  apply (command_line_overrides_environment (builtins:=sample_builtins)
           (sample_join_args (Some "alice") (Some "pw")) sample_environ).
  eapply sample_cli_ok. reflexivity.
Defined.

Lemma handoff_is_fixed_by_target_witness :
  exists t,
    calls_of (run_container (policy:=sample_policy) (sample_run_cli "smbd")
                sample_world)
    = t ++ [c_execvp "/usr/sbin/smbd" smbd_cmd].
Proof.
  apply (proj2 (handoff_is_fixed_by_target (policy:=sample_policy)
                  (sample_run_cli "smbd") sample_world)
           "/usr/sbin/smbd" smbd_cmd).
  vm_compute. reflexivity.
Defined.

Lemma auto_join_only_for_winbindd_witness :
  exists t,
    calls_of (run_container (policy:=sample_policy)
                (setattr (sample_run_cli "winbindd") "insecure_auto_join" (PBool true))
                sample_world)
    = t ++ [c_join (PStr "Administrator") (PStr "");
            c_execvp "/usr/sbin/winbindd" winbindd_cmd].
Proof.
  apply (proj2 (proj1 (proj2 (auto_join_only_for_winbindd (policy:=sample_policy)
                 (setattr (sample_run_cli "winbindd") "insecure_auto_join" (PBool true))
                 sample_world))
               ltac:(vm_compute; reflexivity) ltac:(vm_compute; reflexivity)
               (PStr "Administrator") (PStr "")
               ltac:(vm_compute; reflexivity) ltac:(vm_compute; reflexivity))).
  vm_compute. do 12 right. by left.
Defined.

Lemma join_username_ignores_environment_witness :
  sample_cli (sample_join_args None None) sample_environ !! "username"
  = Some (PStr "Administrator").
Proof.
  apply (proj1 (join_username_ignores_environment (builtins:=sample_builtins)
                  (sample_join_args None None) sample_environ _
                  ltac:(eapply sample_cli_ok; reflexivity))).
  discriminate.
Defined.

Lemma join_username_empty_counterexample :
  exists cli,
    main_cli (builtins:=sample_builtins) (sample_join_args (Some "") None) sample_environ
    = Ok cli
    /\ cli !! "username" = Some (PStr "envuser")
    /\ cli !! "username"
       <> Some (PStr (default "Administrator"
                        (opt_username (sample_join_args (Some "") None))))
    /\ cli !! "username" <> Some (PStr "Administrator")
    /\ calls_of (main (builtins:=sample_builtins) (policy:=sample_policy)
                   (sample_join_args (Some "") None) sample_environ sample_world)
       = [c_join (PStr "envuser") (PStr "envpass")].
Proof.
  assert (sample_cli (sample_join_args (Some "") None) sample_environ !! "username"
          = Some (PStr "envuser")) as Hu by (vm_compute; reflexivity).
  exists (sample_cli (sample_join_args (Some "") None) sample_environ).
  split; [eapply sample_cli_ok; reflexivity|].
  split; [exact Hu|]. rewrite Hu.
  split; [discriminate|]. split; [discriminate|].
  vm_compute. reflexivity.
Qed.
